(** * Holder admin protocol (acapy_plugin_toolbox/holder/v0_1.py)

    A shallow embedding of the admin-holder message handlers and of the
    event bridge, together with the properties stated about them.

    Python values are modelled as follows.  Strings are [string]; integers
    are [Z]; [None]-able values are [option]; a record's [serialize()]
    dictionary is the record itself.  Exceptions are values of [exn] and a
    coroutine is a function of the state monad [M] below, whose state holds
    the record store and the list of messages handed to the responder. *)

From stdpp Require Import base strings list gmap.
From Stdlib Require Import ZArith Lia.

Local Open Scope string_scope.
Local Open Scope Z_scope.

(** ** Exceptions *)

(** The exception classes the handlers raise, catch or let through. *)
Inductive exn_class :=
  | StorageError
  | StorageNotFoundError
  | CredentialManagerError
  | BaseModelError
  | IndyHolderError
  | LedgerError
  | WalletNotFoundError
  | InvalidConnection
  | InvalidPresentationExchange
  | InvalidArgument
  | AccessDenied
  | UnboundLocalError
  | AttributeError.

Global Instance exn_class_eq_dec : EqDecision exn_class.
Proof. solve_decision. Defined.

Record exn := Exn { exn_cls : exn_class; exn_text : string }.

Global Instance exn_eq_dec : EqDecision exn.
Proof. solve_decision. Defined.

(** [issubclass]: every class is its own subclass, and
    [StorageNotFoundError] derives from [StorageError]. *)
Definition issubclass (c d : exn_class) : bool :=
  bool_decide (c = d) ||
  match c, d with
  | StorageNotFoundError, StorageError => true
  | _, _ => false
  end.

(** [isinstance(err, classes)] for a class or a tuple of classes. *)
Definition isinstance (err : exn) (classes : list exn_class) : bool :=
  existsb (issubclass (exn_cls err)) classes.

Inductive result (A : Type) :=
  | Ok (a : A)
  | Raise (e : exn).
Arguments Ok {A} a.
Arguments Raise {A} e.

(** ** Records of the agent *)

Module ConnRecord.
Record t := Build {
  connection_id : string;
  my_did : string;
  is_ready : bool
}.
End ConnRecord.

Module CredExRecord.
Record t := Build {
  credential_exchange_id : string;
  connection_id : string;
  thread_id : string;
  state : string;
  credential_proposal_dict : string
}.

Definition STATE_PROPOSAL_SENT := "proposal_sent".
Definition STATE_PROPOSAL_RECEIVED := "proposal_received".
Definition STATE_OFFER_SENT := "offer_sent".
Definition STATE_OFFER_RECEIVED := "offer_received".
Definition STATE_REQUEST_SENT := "request_sent".
Definition STATE_REQUEST_RECEIVED := "request_received".
Definition STATE_ISSUED := "credential_issued".
Definition STATE_CREDENTIAL_RECEIVED := "credential_received".
Definition STATE_ACKED := "credential_acked".

Definition serialize (self : t) : t := self.
Definition deserialize (payload : t) : t := payload.
End CredExRecord.

Module PresExRecord.
Record t := Build {
  presentation_exchange_id : string;
  connection_id : string;
  role : string;
  state : string;
  verified : option string;
  presentation_request : string
}.

Definition ROLE_PROVER := "prover".
Definition STATE_REQUEST_RECEIVED := "request_received".

Definition serialize (self : t) : t := self.
Definition deserialize (payload : t) : t := payload.
End PresExRecord.

(** ** The record store behind a session *)

Record Store := {
  cred_ex_records : list CredExRecord.t;
  pres_ex_records : list PresExRecord.t;
  conn_records : list ConnRecord.t;
  (** connections of the administrative sessions currently open *)
  admin_sessions : list string
}.

(** [retrieve_by_id] of a record class: the record stored under the id, or
    [StorageNotFoundError]. *)
Definition retrieve_by_id {R : Type} (record_id : R → string)
    (records : list R) (wanted : string) : result R :=
  match List.find (λ r, String.eqb (record_id r) wanted) records with
  | Some r => Ok r
  | None => Raise (Exn StorageNotFoundError "Record not found")
  end.

Definition ConnRecord_retrieve_by_id (session : Store) (connection_id : string)
    : result ConnRecord.t :=
  retrieve_by_id ConnRecord.connection_id (conn_records session) connection_id.

Definition CredExRecord_retrieve_by_id (session : Store) (cred_ex_id : string)
    : result CredExRecord.t :=
  retrieve_by_id CredExRecord.credential_exchange_id
    (cred_ex_records session) cred_ex_id.

Definition PresExRecord_retrieve_by_id (session : Store) (pres_ex_id : string)
    : result PresExRecord.t :=
  retrieve_by_id PresExRecord.presentation_exchange_id
    (pres_ex_records session) pres_ex_id.

(** [CredExRecord.query(session)]: all records, in the order of the store. *)
Definition CredExRecord_query (session : Store) : list CredExRecord.t :=
  cred_ex_records session.

(** One entry of [post_filter_positive]: the serialized record must carry
    the given value under the given key. *)
Inductive post_filter_item :=
  | filter_role (v : string)
  | filter_connection_id (v : string)
  | filter_verified (v : string).

Definition match_post_filter (r : PresExRecord.t) (item : post_filter_item)
    : bool :=
  match item with
  | filter_role v => String.eqb (PresExRecord.role r) v
  | filter_connection_id v => String.eqb (PresExRecord.connection_id r) v
  | filter_verified v =>
      match PresExRecord.verified r with
      | Some x => String.eqb x v
      | None => false
      end
  end.

(** [PresExRecord.query(session, {}, post_filter_positive=...)]. *)
Definition PresExRecord_query (session : Store)
    (post_filter_positive : list post_filter_item) : list PresExRecord.t :=
  List.filter (λ r, forallb (match_post_filter r) post_filter_positive)
    (pres_ex_records session).

(** ** Pagination (decorators/pagination.py) *)

Module Page.
Record t := Build { count_ : Z; offset : Z }.
End Page.

Module Paginate.
Record t := Build { limit : Z; offset : Z }.

(** Modelled from the spec: [Paginate()] without arguments, of
    decorators/pagination.py, whose source is not available; the default
    cursor is limit 10, offset 0. *)
Definition default : t := Build 10 0.

(** Modelled from the spec: [Paginate.apply] of decorators/pagination.py,
    whose source is not available.  A limit of zero or below is rejected with [InvalidArgument]; the offset clamps
    to the number of records, the slice holds at most [limit] records from
    there on, and the page carries the size of the slice and the offset
    that was asked for.  Nothing is said about a negative offset; the
    slice then starts at the first record. *)
Definition apply {A : Type} (self : t) (records : list A)
    : result (list A * Page.t) :=
  if limit self <=? 0 then
    Raise (Exn InvalidArgument "limit must be positive")
  else
    let start := Z.min (offset self) (Z.of_nat (length records)) in
    let slice := take (Z.to_nat (limit self)) (drop (Z.to_nat start) records) in
    Ok (slice, Page.Build (Z.of_nat (length slice)) (offset self)).
End Paginate.

(** ** Messages *)

Record ThreadDecorator := { thid : string; pthid : option string }.

(** The part of [AgentMessage] the handlers read on a request: its id and
    its thread decorator. *)
Module AgentMessage.
Record t := Build { _id : string; _thread : option ThreadDecorator }.

Definition _thread_id (self : t) : string :=
  match _thread self with
  | Some thread => thid thread
  | None => _id self
  end.
End AgentMessage.

(** Messages of the issue-credential and present-proof protocols, which go
    to the remote party. *)
Inductive ProtocolMessage :=
  | CredentialProposal (comment : option string) (credential_proposal : string)
      (cred_def_id : option string)
  | PresentationProposal (comment : option string)
      (presentation_proposal : string)
  | CredentialRequest (body : string)
  | Presentation (body : string).

(** The holder's credential store, injected from the profile. *)
Class IndyHolder := {
  get_credentials_for_presentation_request_by_referent :
    Store → string → list string → Z → Z → list (string * string) →
    result (list string)
}.

Module PresRequestReceived.
Record t := Build {
  record : PresExRecord.t;
  matching_credentials : list string;
  page : option Page.t
}.

Definition message_type := "presentation-request-received".
Definition DEFAULT_COUNT := 10.

Definition __init__ (record : PresExRecord.t) : t := Build record [] None.

Definition retrieve_matching_credentials `{IndyHolder} (self : t)
    (profile : Store) : result t :=
  match
    get_credentials_for_presentation_request_by_referent profile
      (PresExRecord.presentation_request (record self)) [] 0 DEFAULT_COUNT []
  with
  | Raise e => Raise e
  | Ok credentials =>
      Ok (Build (record self) credentials
            (Some (Page.Build DEFAULT_COUNT DEFAULT_COUNT)))
  end.
End PresRequestReceived.

(** The messages this protocol sends to the admin client, and the problem
    report of the toolbox. *)
Inductive AdminHolderMessage :=
  | CredList (results : list CredExRecord.t) (page : option Page.t)
  | CredExchange (fields : CredExRecord.t)
  | CredOfferRecv (fields : CredExRecord.t)
  | CredRequestSent (fields : CredExRecord.t)
  | CredReceived (fields : CredExRecord.t)
  | PresList (results : list PresExRecord.t) (page : option Page.t)
  | PresExchange (fields : PresExRecord.t)
  | PresRequestReceived (self : PresRequestReceived.t)
  | PresSent (fields : PresExRecord.t)
  | ProblemReport (explain_ltxt who_retries : string).

Inductive Payload :=
  | Admin (m : AdminHolderMessage)
  | Protocol (m : ProtocolMessage).

(** A message handed to the responder.  Its id is a fresh uuid that no
    handler reads; its thread decorator is unset until
    [assign_thread_from]. *)
Record OutboundMessage := { payload : Payload; thread : option ThreadDecorator }.

Definition new_message (m : AdminHolderMessage) : OutboundMessage :=
  {| payload := Admin m; thread := None |}.

Definition new_protocol_message (m : ProtocolMessage) : OutboundMessage :=
  {| payload := Protocol m; thread := None |}.

(** [self.assign_thread_from(msg)]: the thread of the reply is the thread of
    [msg], or starts at the id of [msg] when it has none. *)
Definition assign_thread_from (self : OutboundMessage) (msg : AgentMessage.t)
    : OutboundMessage :=
  {| payload := payload self;
     thread := Some {| thid := AgentMessage._thread_id msg;
                       pthid := match AgentMessage._thread msg with
                                | Some thread => pthid thread
                                | None => None
                                end |} |}.

(** A reply is thread-correlated to a request when its thread decorator
    names the thread of the request. *)
Definition thread_correlated (reply : OutboundMessage) (request : AgentMessage.t)
    : bool :=
  match thread reply with
  | Some d => String.eqb (thid d) (AgentMessage._thread_id request)
  | None => false
  end.

Definition protocol := "did:sov:BzCbsNYhMrjHiqZDTUASHg;spec/admin-holder/0.1".

(** The [message_type] attribute of the class of an admin message. *)
Definition message_type (m : AdminHolderMessage) : string :=
  match m with
  | CredList _ _ => "credentials-list"
  | CredExchange _ => "credential-exchange"
  | CredOfferRecv _ => "credential-offer-received"
  | CredRequestSent _ => "credential-request-sent"
  | CredReceived _ => "credential-received"
  | PresList _ _ => "presentations-list"
  | PresExchange _ => "presentation-exchange"
  | PresRequestReceived _ => PresRequestReceived.message_type
  | PresSent _ => "presentation-sent"
  | ProblemReport _ _ => "problem-report"
  end.

(** ** Protocol engines *)

Class CredentialManager := {
  create_proposal :
    Store → string → option string → string → option string →
    result CredExRecord.t * Store;
  create_request :
    Store → CredExRecord.t → string →
    result (CredExRecord.t * OutboundMessage) * Store
}.

Record IndyRequestedCreds := RequestedCreds {
  self_attested_attributes : gmap string string;
  requested_attributes : gmap string string;
  requested_predicates : gmap string string
}.

Class PresentationManager := {
  create_exchange_for_proposal :
    Store → string → ProtocolMessage → option bool →
    result PresExRecord.t * Store;
  create_presentation :
    Store → PresExRecord.t → IndyRequestedCreds → option string →
    result (PresExRecord.t * OutboundMessage) * Store
}.

(** ** Coroutines: state, responder, exceptions *)

Inductive Effect :=
  | send (message : OutboundMessage) (connection_id : string)
  | send_reply (message : OutboundMessage).

Record World := { store : Store; outbox : list Effect }.

Definition M (A : Type) : Type := World → result A * World.

Definition ret {A} (a : A) : M A := λ w, (Ok a, w).

Definition raise {A} (e : exn) : M A := λ w, (Raise e, w).

Definition bind {A B} (m : M A) (k : A → M B) : M B :=
  λ w, match m w with
       | (Ok a, w') => k a w'
       | (Raise e, w') => (Raise e, w')
       end.

Notation "'let!' x ':=' m 'in' k" := (bind m (λ x, k))
  (at level 10, x pattern, m at level 100, k at level 200).

(** A value or an exception computed without touching the state. *)
Definition lift {A} (r : result A) : M A := λ w, (r, w).

(** A call that reads the store through the session. *)
Definition with_session {A} (f : Store → result A) : M A :=
  λ w, (f (store w), w).

(** A call into a protocol engine, which may write to the store. *)
Definition call_engine {A} (f : Store → result A * Store) : M A :=
  λ w, let (r, s) := f (store w) in (r, {| store := s; outbox := outbox w |}).

Definition emit (e : Effect) : M unit :=
  λ w, (Ok tt, {| store := store w; outbox := (outbox w ++ [e])%list |}).

Definition responder_send (message : OutboundMessage) (connection_id : string)
    : M unit :=
  emit (send message connection_id).

Definition responder_send_reply (message : OutboundMessage) : M unit :=
  emit (send_reply message).

(** The body of a [with] block over the local variables [L]: it stops at the
    first exception and keeps the assignments made until then. *)
Definition block (L : Type) : Type := L → World → (L * option exn) * World.

Definition stmt {L A} (m : L → M A) (assign : L → A → L) : block L :=
  λ l w, match m l w with
         | (Ok a, w') => ((assign l a, None), w')
         | (Raise e, w') => ((l, Some e), w')
         end.

Definition seq_block {L} (b1 b2 : block L) : block L :=
  λ l w, match b1 l w with
         | ((l', None), w') => b2 l' w'
         | r => r
         end.

(** Reading a local variable that no assignment has reached. *)
Definition local {A} (name : string) (v : option A) : M A :=
  match v with
  | Some a => ret a
  | None => raise (Exn UnboundLocalError name)
  end.

(** An attribute of a local variable that may still hold [None]. *)
Definition attribute {A B} (name : string) (v : option A) (get : A → B) : M B :=
  match v with
  | Some a => ret (get a)
  | None => raise (Exn AttributeError name)
  end.

(** [try: body / except classes: handler / else: continue]. *)
Definition try_except {A B} (body : M A) (classes : list exn_class)
    (handler : exn → M B) (continue : A → M B) : M B :=
  λ w, match body w with
       | (Ok a, w') => continue a w'
       | (Raise e, w') =>
           if isinstance e classes then handler e w' else (Raise e, w')
       end.

(** ** Helpers of the toolbox (util.py) *)

Record RequestContext (Msg : Type) := {
  message : Msg;
  connection_is_admin : bool;
  settings : gmap string bool
}.
Arguments message {Msg} _.
Arguments connection_is_admin {Msg} _.
Arguments settings {Msg} _.

(** What the spec leaves open about [ExceptionReporter]: the wording of the
    report built for an exception, and whether the block's exception is
    raised again once it is reported or is swallowed there. *)
Class ExceptionReporting := {
  explain : exn → string;
  retry_hint : exn → string;
  raises_again : bool
}.

(** Modelled from the spec: [ExceptionReporter] of util.py, whose source is
    not available.  An exception of the given classes that leaves the block
    becomes a problem report, thread-correlated to the original message and
    sent back as a reply; any other exception passes through.  The local
    variables keep the assignments made before the exception. *)
Definition ExceptionReporter `{ExceptionReporting} {L}
    (exception : list exn_class) (original_message : AgentMessage.t)
    (body : block L) (locals : L) : M L :=
  λ w, match body locals w with
       | ((l, None), w') => (Ok l, w')
       | ((l, Some err), w') =>
           if isinstance err exception then
             let report :=
               assign_thread_from
                 (new_message (ProblemReport (explain err) (retry_hint err)))
                 original_message in
             (let! _ := responder_send_reply report in
              if raises_again then raise err else ret l) w'
           else (Raise err, w')
       end.

(** Modelled from the spec: [get_connection] of util.py, whose source is
    not available.  It retrieves the connection and requires it to be ready;
    a missing or unready connection is an [InvalidConnection]. *)
Definition get_connection (session : Store) (connection_id : string)
    : result ConnRecord.t :=
  match ConnRecord_retrieve_by_id session connection_id with
  | Ok conn_record =>
      if ConnRecord.is_ready conn_record then Ok conn_record
      else Raise (Exn InvalidConnection "Connection is not ready.")
  | Raise err =>
      if isinstance err [StorageNotFoundError] then
        Raise (Exn InvalidConnection "Connection not found.")
      else Raise err
  end.

Fixpoint send_to_each (message : OutboundMessage) (sessions : list string)
    : M unit :=
  match sessions with
  | [] => ret tt
  | session :: rest =>
      let! _ := responder_send message session in
      send_to_each message rest
  end.

(** Modelled from the spec: [send_to_admins] of util.py, whose source is not
    available.  Every administrative session currently open receives a copy
    of the message. *)
Definition send_to_admins (message : OutboundMessage) : M unit :=
  λ w, send_to_each message (admin_sessions (store w)) w.

(** Modelled from the spec: [admin_only] of util.py, whose source is not
    available.  A message that arrives over a connection other than an
    administrative one is rejected with [AccessDenied], without a reply. *)
Definition admin_only {Msg} (func : RequestContext Msg → M unit)
    : RequestContext Msg → M unit :=
  λ context,
    if connection_is_admin context then func context
    else raise (Exn AccessDenied "Connection is not an admin connection").

(** Modelled from the spec: [log_handling] of util.py, whose source is not
    available.  The spec gives a handler no behaviour besides its access
    check and its transition: the decorator writes to the log only. *)
Definition log_handling {Msg} (func : RequestContext Msg → M unit)
    : RequestContext Msg → M unit :=
  func.

(** Truth value of an optional list: [None] and the empty list are false. *)
Definition truthy {A} (l : option (list A)) : bool :=
  match l with
  | Some (_ :: _) => true
  | _ => false
  end.

(** [a or b] on optional booleans. *)
Definition py_or (a b : option bool) : option bool :=
  match a with
  | Some true => a
  | _ => b
  end.

(** ** Command handlers *)

Module CredGetList.
Record t := Build {
  base : AgentMessage.t;
  paginate : Paginate.t;
  states : option (list string)
}.

Definition message_type := "credentials-get-list".

Definition handle : RequestContext t → M unit :=
  log_handling (admin_only (λ context,
    let self := message context in
    let! credentials := with_session (λ session, Ok (CredExRecord_query session)) in
    let credentials :=
      if truthy (states self) then
        filter (λ c, CredExRecord.state c ∈ default [] (states self)) credentials
      else credentials in
    let! (credentials, page) :=
      lift (Paginate.apply (paginate self) credentials) in
    let cred_list :=
      new_message (CredList (map CredExRecord.serialize credentials) (Some page)) in
    responder_send_reply cred_list)).
End CredGetList.

Module SendCredProposal.
Record t := Build {
  base : AgentMessage.t;
  connection_id : string;
  cred_def_id : option string;
  comment : option string;
  credential_proposal : string
}.

Definition message_type := "send-credential-proposal".

Definition handle `{CredentialManager} : RequestContext t → M unit :=
  log_handling (admin_only (λ context,
    let connection_id := connection_id (message context) in
    let credential_definition_id := cred_def_id (message context) in
    let comment := comment (message context) in
    try_except
      (with_session (λ session, ConnRecord_retrieve_by_id session connection_id))
      [StorageNotFoundError]
      (λ _,
        let report := new_message (ProblemReport "Connection not found." "none") in
        let report := assign_thread_from report (base (message context)) in
        responder_send_reply report)
      (λ conn_record,
        if negb (ConnRecord.is_ready conn_record) then
          let report := new_message (ProblemReport "Connection invalid." "none") in
          let report := assign_thread_from report (base (message context)) in
          responder_send_reply report
        else
          let! credential_exchange_record :=
            call_engine (λ session,
              create_proposal session connection_id comment
                (credential_proposal (message context))
                credential_definition_id) in
          let! _ :=
            responder_send
              (new_protocol_message
                 (CredentialProposal (SendCredProposal.comment (message context))
                    (credential_proposal (message context))
                    credential_definition_id))
              connection_id in
          let cred_exchange :=
            new_message
              (CredExchange (CredExRecord.serialize credential_exchange_record)) in
          let cred_exchange :=
            assign_thread_from cred_exchange (base (message context)) in
          responder_send_reply cred_exchange))).
End SendCredProposal.

Module CredOfferAccept.
Record t := Build {
  base : AgentMessage.t;
  credential_exchange_id : string
}.

Definition message_type := "credential-offer-accept".

(** The local variables of [handle] that its [with] block assigns. *)
Record locals := Locals {
  cred_ex_record : option CredExRecord.t;
  connection_record : option ConnRecord.t;
  connection_id : option string
}.

Definition handle `{ExceptionReporting} `{CredentialManager}
    : RequestContext t → M unit :=
  log_handling (admin_only (λ context,
    let self := message context in
    let cred_ex_record := None in
    let connection_record := None in
    let! l :=
      ExceptionReporter
        [StorageError; CredentialManagerError; BaseModelError]
        (base self)
        (seq_block
           (stmt
              (λ _, with_session (λ session,
                 CredExRecord_retrieve_by_id session (credential_exchange_id self)))
              (λ l r, Locals (Some r) (CredOfferAccept.connection_record l)
                        (connection_id l)))
           (seq_block
              (stmt
                 (λ l, attribute "connection_id" (CredOfferAccept.cred_ex_record l)
                         CredExRecord.connection_id)
                 (λ l c, Locals (CredOfferAccept.cred_ex_record l)
                           (CredOfferAccept.connection_record l) (Some c)))
              (stmt
                 (λ l, let! connection_id := local "connection_id" (connection_id l) in
                       with_session (λ session, get_connection session connection_id))
                 (λ l c, Locals (CredOfferAccept.cred_ex_record l) (Some c)
                           (connection_id l)))))
        (Locals cred_ex_record connection_record None) in
    let! my_did :=
      attribute "my_did" (CredOfferAccept.connection_record l) ConnRecord.my_did in
    let! cred_ex_record :=
      attribute "credential_exchange_id" (CredOfferAccept.cred_ex_record l) id in
    let! (cred_ex_record, credential_request_message) :=
      call_engine (λ session, create_request session cred_ex_record my_did) in
    let sent :=
      new_message (CredRequestSent (CredExRecord.serialize cred_ex_record)) in
    let! connection_id := local "connection_id" (connection_id l) in
    let! _ := responder_send credential_request_message connection_id in
    responder_send_reply sent)).
End CredOfferAccept.

Module PresGetList.
Record t := Build {
  base : AgentMessage.t;
  connection_id : option string;
  verified : option string;
  paginate : Paginate.t
}.

Definition message_type := "presentations-get-list".

Definition __init__ (base : AgentMessage.t) (connection_id verified : option string)
    (paginate : option Paginate.t) : t :=
  Build base connection_id verified (default Paginate.default paginate).

Definition handle : RequestContext t → M unit :=
  log_handling (admin_only (λ context,
    let paginate := paginate (message context) in
    let post_filter_positive :=
      ([filter_role PresExRecord.ROLE_PROVER]
       ++ match connection_id (message context) with
          | Some v => [filter_connection_id v]
          | None => []
          end
       ++ match verified (message context) with
          | Some v => [filter_verified v]
          | None => []
          end)%list in
    let! records :=
      with_session (λ session, Ok (PresExRecord_query session post_filter_positive)) in
    let! (records, page) := lift (Paginate.apply paginate records) in
    let pres_list :=
      new_message (PresList (map PresExRecord.serialize records) (Some page)) in
    responder_send_reply pres_list)).
End PresGetList.

Module SendPresProposal.
Record t := Build {
  base : AgentMessage.t;
  connection_id : string;
  comment : option string;
  presentation_proposal : string;
  auto_present : option bool;
  trace : option bool
}.

Definition message_type := "send-presentation-proposal".

Definition handle `{ExceptionReporting} `{PresentationManager}
    : RequestContext t → M unit :=
  log_handling (admin_only (λ context,
    let connection_id := connection_id (message context) in
    let! _ :=
      ExceptionReporter [InvalidConnection] (base (message context))
        (stmt
           (λ _, with_session (λ session, get_connection session connection_id))
           (λ l _, l))
        tt in
    let comment := comment (message context) in
    let presentation_proposal :=
      PresentationProposal comment
        (SendPresProposal.presentation_proposal (message context)) in
    let auto_present :=
      py_or (auto_present (message context))
        (settings context !! "debug.auto_respond_presentation_request") in
    let! presentation_exchange_record :=
      call_engine (λ session,
        create_exchange_for_proposal session connection_id
          presentation_proposal auto_present) in
    let! _ :=
      responder_send (new_protocol_message presentation_proposal) connection_id in
    let pres_exchange :=
      new_message
        (PresExchange (PresExRecord.serialize presentation_exchange_record)) in
    let pres_exchange := assign_thread_from pres_exchange (base (message context)) in
    responder_send_reply pres_exchange)).
End SendPresProposal.

Module PresRequestApprove.
Record t := Build {
  base : AgentMessage.t;
  presentation_exchange_id : string;
  self_attested_attributes : gmap string string;
  requested_attributes : gmap string string;
  requested_predicates : gmap string string;
  comment : option string
}.

Definition message_type := "presentation-request-approve".

(** Retrieve a presentation exchange record and validate its state. *)
Definition get_pres_ex_record (session : Store) (pres_ex_id : string)
    : result PresExRecord.t :=
  match PresExRecord_retrieve_by_id session pres_ex_id with
  | Raise err =>
      if isinstance err [StorageNotFoundError] then
        Raise (Exn InvalidPresentationExchange "Presentation exchange ID not found")
      else Raise err
  | Ok pres_ex_record =>
      if negb (String.eqb (PresExRecord.state pres_ex_record)
                 PresExRecord.STATE_REQUEST_RECEIVED)
      then
        Raise (Exn InvalidPresentationExchange
                 "Presentation must be in request received state")
      else Ok pres_ex_record
  end.

(** The local variables of [handle] that its [with] blocks assign. *)
Record locals := Locals {
  pres_ex_record : option PresExRecord.t;
  conn_record : option ConnRecord.t;
  outbound : option OutboundMessage
}.

Definition handle `{ExceptionReporting} `{PresentationManager}
    : RequestContext t → M unit :=
  log_handling (admin_only (λ context,
    let self := message context in
    let! l :=
      ExceptionReporter [InvalidPresentationExchange] (base (message context))
        (stmt
           (λ _, with_session (λ session,
              get_pres_ex_record session (presentation_exchange_id self)))
           (λ l r, Locals (Some r) (conn_record l) (outbound l)))
        (Locals None None None) in
    let! l :=
      ExceptionReporter [InvalidConnection] (base (message context))
        (stmt
           (λ l, let! pres_ex_record := local "pres_ex_record" (pres_ex_record l) in
                 with_session (λ session,
                   get_connection session
                     (PresExRecord.connection_id pres_ex_record)))
           (λ l c, Locals (pres_ex_record l) (Some c) (outbound l)))
        l in
    let! l :=
      ExceptionReporter
        [BaseModelError; IndyHolderError; LedgerError; StorageError;
         WalletNotFoundError]
        (base (message context))
        (stmt
           (λ l, let! pres_ex_record := local "pres_ex_record" (pres_ex_record l) in
                 call_engine (λ session,
                   create_presentation session pres_ex_record
                     (RequestedCreds (self_attested_attributes self)
                        (requested_attributes self) (requested_predicates self))
                     (comment self)))
           (λ l r, Locals (Some (fst r)) (conn_record l) (Some (snd r))))
        l in
    let! message := local "message" (outbound l) in
    let! connection_id :=
      let! conn_record := local "conn_record" (conn_record l) in
      ret (ConnRecord.connection_id conn_record) in
    let! _ := responder_send message connection_id in
    let! pres_ex_record := local "pres_ex_record" (pres_ex_record l) in
    let presentation_sent :=
      new_message (PresSent (PresExRecord.serialize pres_ex_record)) in
    let presentation_sent := assign_thread_from presentation_sent (base self) in
    responder_send_reply presentation_sent)).
End PresRequestApprove.

(** ** The schema of credentials-get-list *)

(** A field value as a validator sees it, as far as the validator of
    [states] tells values apart. *)
Inductive field_value :=
  | str_value (s : string)
  | list_value (items : list string).

(** Python's [==] on such values: a list never equals a string. *)
Definition value_eqb (a b : field_value) : bool :=
  match a, b with
  | str_value x, str_value y => String.eqb x y
  | list_value x, list_value y => bool_decide (x = y)
  | _, _ => false
  end.

(** marshmallow's [validate.OneOf(choices)]: the value must be [in] the
    choices. *)
Definition OneOf (choices : list field_value) (value : field_value) : bool :=
  existsb (value_eqb value) choices.

Module CredGetListFields.
(** The body of a credentials-get-list message as it arrives. *)
Record data := Build {
  base : AgentMessage.t;
  paginate : option Paginate.t;
  states : option (list string)
}.

(** The choices of the validator of [states]. *)
Definition states_choices : list field_value :=
  [ str_value CredExRecord.STATE_ACKED;
    str_value CredExRecord.STATE_CREDENTIAL_RECEIVED;
    str_value CredExRecord.STATE_ISSUED;
    str_value CredExRecord.STATE_OFFER_RECEIVED;
    str_value CredExRecord.STATE_OFFER_SENT;
    str_value CredExRecord.STATE_PROPOSAL_RECEIVED;
    str_value CredExRecord.STATE_PROPOSAL_SENT;
    str_value CredExRecord.STATE_REQUEST_RECEIVED;
    str_value CredExRecord.STATE_REQUEST_SENT ].

(** Loading a message through the schema of [Fields].  A missing
    [~paginate] becomes [Paginate(limit=10, offset=0)]; [states] may be
    missing; [validate] is an argument of [fields.List], so when [states]
    is there the validator is given the list itself.  A message that fails
    validation is refused with [BaseModelError]. *)
Definition deserialize (message : data) : result CredGetList.t :=
  let cursor := default (Paginate.Build 10 0) (paginate message) in
  match states message with
  | None => Ok (CredGetList.Build (base message) cursor None)
  | Some items =>
      if OneOf states_choices (list_value items) then
        Ok (CredGetList.Build (base message) cursor (Some items))
      else Raise (Exn BaseModelError "CredGetList schema validation failed")
  end.
End CredGetListFields.

(** The body of [PresRequestApprove.get_pres_ex_record] over any lookup of
    the record, to tell what it does with a lookup that fails otherwise
    than by [StorageNotFoundError]. *)
Definition get_pres_ex_record_over
    (lookup : Store → string → result PresExRecord.t)
    (session : Store) (pres_ex_id : string) : result PresExRecord.t :=
  match lookup session pres_ex_id with
  | Raise err =>
      if isinstance err [StorageNotFoundError] then
        Raise (Exn InvalidPresentationExchange "Presentation exchange ID not found")
      else Raise err
  | Ok pres_ex_record =>
      if negb (String.eqb (PresExRecord.state pres_ex_record)
                 PresExRecord.STATE_REQUEST_RECEIVED)
      then
        Raise (Exn InvalidPresentationExchange
                 "Presentation must be in request received state")
      else Ok pres_ex_record
  end.

(** A record store that cannot be reached. *)
Definition unreachable_lookup (session : Store) (pres_ex_id : string)
    : result PresExRecord.t :=
  Raise (Exn StorageError "storage unavailable").

(** ** Message registry *)

(** The message classes of this module, as
    [MESSAGE_TYPES] refers to them. *)
Module msg_class.
Inductive t :=
  | CredGetList | CredList | SendCredProposal | CredExchange | CredOfferRecv
  | CredOfferAccept | CredRequestSent | CredReceived | PresGetList | PresList
  | SendPresProposal | PresExchange | PresRequestReceived | PresRequestApprove
  | PresSent.

Definition __name__ (cls : t) : string :=
  match cls with
  | CredGetList => "CredGetList"
  | CredList => "CredList"
  | SendCredProposal => "SendCredProposal"
  | CredExchange => "CredExchange"
  | CredOfferRecv => "CredOfferRecv"
  | CredOfferAccept => "CredOfferAccept"
  | CredRequestSent => "CredRequestSent"
  | CredReceived => "CredReceived"
  | PresGetList => "PresGetList"
  | PresList => "PresList"
  | SendPresProposal => "SendPresProposal"
  | PresExchange => "PresExchange"
  | PresRequestReceived => "PresRequestReceived"
  | PresRequestApprove => "PresRequestApprove"
  | PresSent => "PresSent"
  end.

Definition __module__ (cls : t) : string := "acapy_plugin_toolbox.holder.v0_1".

Definition message_type (cls : t) : string :=
  match cls with
  | CredGetList => "credentials-get-list"
  | CredList => "credentials-list"
  | SendCredProposal => "send-credential-proposal"
  | CredExchange => "credential-exchange"
  | CredOfferRecv => "credential-offer-received"
  | CredOfferAccept => "credential-offer-accept"
  | CredRequestSent => "credential-request-sent"
  | CredReceived => "credential-received"
  | PresGetList => "presentations-get-list"
  | PresList => "presentations-list"
  | SendPresProposal => "send-presentation-proposal"
  | PresExchange => "presentation-exchange"
  | PresRequestReceived => "presentation-request-received"
  | PresRequestApprove => "presentation-request-approve"
  | PresSent => "presentation-sent"
  end.

(** Modelled from the spec: the [Meta.message_type] that
    [expand_message_class] of util.py, whose source is not available, gives
    a class: its message type name under the protocol namespace and
    version. *)
Definition Meta_message_type (cls : t) : string :=
  protocol +:+ "/" +:+ message_type cls.
End msg_class.

Definition PROTOCOL := protocol.
Definition TITLE := "Holder Admin Protocol".
Definition NAME := "admin-holder".
Definition VERSION := "0.1".

(** The classes the dict comprehension of [MESSAGE_TYPES] ranges over. *)
Definition registered_classes : list msg_class.t :=
  [ msg_class.CredGetList; msg_class.CredList; msg_class.CredOfferAccept;
    msg_class.CredOfferRecv; msg_class.CredRequestSent; msg_class.CredReceived;
    msg_class.SendCredProposal; msg_class.CredExchange; msg_class.PresGetList;
    msg_class.PresList; msg_class.PresRequestApprove;
    msg_class.SendPresProposal; msg_class.PresExchange ].

Definition MESSAGE_TYPES : gmap string string :=
  foldl
    (λ d cls,
       <[msg_class.Meta_message_type cls :=
           msg_class.__module__ cls +:+ "." +:+ msg_class.__name__ cls]> d)
    ∅ registered_classes.

(** The fifteen message type names of the external interface. *)
Definition interface_message_types : list string :=
  [ "credentials-get-list"; "credentials-list"; "send-credential-proposal";
    "credential-exchange"; "credential-offer-received";
    "credential-offer-accept"; "credential-request-sent";
    "credential-received"; "presentations-get-list"; "presentations-list";
    "send-presentation-proposal"; "presentation-exchange";
    "presentation-request-received"; "presentation-request-approve";
    "presentation-sent" ].

(** ** Event bridge *)

Record Event (P : Type) := { topic : string; event_payload : P }.
Arguments topic {P} _.
Arguments event_payload {P} _.

(** Handle issue credential events. *)
Definition issue_credential_event_handler (event : Event CredExRecord.t)
    : M unit :=
  let record := CredExRecord.deserialize (event_payload event) in
  if negb (bool_decide
             (CredExRecord.state record
                ∈ [CredExRecord.STATE_OFFER_RECEIVED;
                   CredExRecord.STATE_CREDENTIAL_RECEIVED]))
  then ret tt
  else
    let message := None in
    let message :=
      if String.eqb (CredExRecord.state record) CredExRecord.STATE_OFFER_RECEIVED
      then Some (new_message (CredOfferRecv (CredExRecord.serialize record)))
      else message in
    let message :=
      if String.eqb (CredExRecord.state record)
           CredExRecord.STATE_CREDENTIAL_RECEIVED
      then Some (new_message (CredReceived (CredExRecord.serialize record)))
      else message in
    (* past the guard above one of the two assignments has run *)
    let! message := attribute "message" message id in
    send_to_admins message.

(** Handle present proof events. *)
Definition present_proof_event_handler `{IndyHolder} (event : Event PresExRecord.t)
    : M unit :=
  let record := PresExRecord.deserialize (event_payload event) in
  if String.eqb (PresExRecord.state record) PresExRecord.STATE_REQUEST_RECEIVED
  then
    let message := PresRequestReceived.__init__ record in
    let! message :=
      with_session (λ profile,
        PresRequestReceived.retrieve_matching_credentials message profile) in
    send_to_admins (new_message (PresRequestReceived message))
  else ret tt.

(** The messages a coroutine hands to the responder when run from [w]. *)
Definition emitted {A} (m : M A) (w : World) : list Effect :=
  drop (length (outbox w)) (outbox (snd (m w))).

(** ** A small agent, to run the handlers on concrete inputs *)

Definition conn_ready : ConnRecord.t := ConnRecord.Build "conn-1" "did:sov:holder" true.
Definition conn_pending : ConnRecord.t := ConnRecord.Build "conn-2" "did:sov:other" false.

Definition cred_offer : CredExRecord.t :=
  CredExRecord.Build "cred-1" "conn-1" "thread-1" "offer_received" "{}".
Definition cred_stored : CredExRecord.t :=
  CredExRecord.Build "cred-2" "conn-1" "thread-2" "credential_received" "{}".
Definition cred_proposed : CredExRecord.t :=
  CredExRecord.Build "cred-3" "conn-1" "thread-3" "proposal_sent" "{}".

Definition pres_request : PresExRecord.t :=
  PresExRecord.Build "pres-1" "conn-1" "prover" "request_received" None "{proof-request}".
Definition pres_done : PresExRecord.t :=
  PresExRecord.Build "pres-2" "conn-1" "prover" "presentation_sent" None "{proof-request}".

Definition sample_store : Store :=
  {| cred_ex_records := [cred_offer; cred_stored; cred_proposed];
     pres_ex_records := [pres_request; pres_done];
     conn_records := [conn_ready; conn_pending];
     admin_sessions := ["admin-1"; "admin-2"] |}.

Definition sample_world : World := {| store := sample_store; outbox := [] |}.

(** A holder store with two credentials for every proof request. *)
Definition sample_holder : IndyHolder :=
  {| get_credentials_for_presentation_request_by_referent :=
       λ _ _ _ _ _ _, Ok ["credential-a"; "credential-b"] |}.

(** A credential engine that files the records it creates. *)
Definition sample_credential_manager : CredentialManager :=
  {| create_proposal := λ session connection_id _ preview _,
       let r := CredExRecord.Build "cred-new" connection_id "thread-new"
                  CredExRecord.STATE_PROPOSAL_SENT preview in
       (Ok r, {| cred_ex_records := (cred_ex_records session ++ [r])%list;
                 pres_ex_records := pres_ex_records session;
                 conn_records := conn_records session;
                 admin_sessions := admin_sessions session |});
     create_request := λ session r my_did,
       (Ok (CredExRecord.Build (CredExRecord.credential_exchange_id r)
              (CredExRecord.connection_id r) (CredExRecord.thread_id r)
              CredExRecord.STATE_REQUEST_SENT
              (CredExRecord.credential_proposal_dict r),
            new_protocol_message (CredentialRequest my_did)),
        session) |}.

Definition sample_presentation_manager : PresentationManager :=
  {| create_exchange_for_proposal := λ session connection_id _ _,
       (Ok (PresExRecord.Build "pres-new" connection_id PresExRecord.ROLE_PROVER
              "proposal_sent" None ""),
        session);
     create_presentation := λ session r _ _,
       (Ok (PresExRecord.Build (PresExRecord.presentation_exchange_id r)
              (PresExRecord.connection_id r) (PresExRecord.role r)
              "presentation_sent" (PresExRecord.verified r)
              (PresExRecord.presentation_request r),
            new_protocol_message (Presentation "proof")),
        session) |}.

Definition sample_reporting (again : bool) : ExceptionReporting :=
  {| explain := exn_text; retry_hint := λ _, "none"; raises_again := again |}.

Definition admin_request : AgentMessage.t := AgentMessage.Build "request-1" None.

Definition admin_context {Msg} (msg : Msg) : RequestContext Msg :=
  {| message := msg; connection_is_admin := true; settings := ∅ |}.

Definition proposal_command (connection_id : string) : SendCredProposal.t :=
  SendCredProposal.Build admin_request connection_id (Some "cred-def-1") None
    "{preview}".

Definition accept_command (cred_ex_id : string) : CredOfferAccept.t :=
  CredOfferAccept.Build admin_request cred_ex_id.

Definition approve_command (pres_ex_id : string) : PresRequestApprove.t :=
  PresRequestApprove.Build admin_request pres_ex_id ∅ ∅ ∅ None.

(** The reply [ExceptionReporter] sends for an exception it reports. *)
Definition problem_report_reply `{ExceptionReporting} (err : exn)
    (original_message : AgentMessage.t) : Effect :=
  send_reply
    (assign_thread_from
       (new_message (ProblemReport (explain err) (retry_hint err)))
       original_message).

(** Engines whose every operation fails with an exception of one class. *)
Definition failing_credential_manager (cls : exn_class) : CredentialManager :=
  {| create_proposal := λ session _ _ _ _,
       (Raise (Exn cls "engine failure"), session);
     create_request := λ session _ _,
       (Raise (Exn cls "engine failure"), session) |}.

Definition failing_presentation_manager (cls : exn_class) : PresentationManager :=
  {| create_exchange_for_proposal := λ session _ _ _,
       (Raise (Exn cls "engine failure"), session);
     create_presentation := λ session _ _ _,
       (Raise (Exn cls "engine failure"), session) |}.

Definition presentation_command (connection_id : string)
    (auto_present : option bool) : SendPresProposal.t :=
  SendPresProposal.Build admin_request connection_id None "{preview}"
    auto_present None.

(** A holder store whose lookup fails. *)
Definition failing_holder : IndyHolder :=
  {| get_credentials_for_presentation_request_by_referent :=
       λ _ _ _ _ _ _, Raise (Exn IndyHolderError "wallet closed") |}.

Definition other_context {Msg} (msg : Msg) : RequestContext Msg :=
  {| message := msg; connection_is_admin := false; settings := ∅ |}.

Definition list_command (connection_id verified : option string)
    : PresGetList.t :=
  PresGetList.__init__ admin_request connection_id verified None.

(** A store whose exchange records sit on a connection that is not ready. *)
Definition cred_unready : CredExRecord.t :=
  CredExRecord.Build "cred-4" "conn-2" "thread-4" "offer_received" "{}".

Definition pres_unready : PresExRecord.t :=
  PresExRecord.Build "pres-3" "conn-2" "prover" "request_received" None
    "{proof-request}".

Definition unready_store : Store :=
  {| cred_ex_records := [cred_unready];
     pres_ex_records := [pres_unready];
     conn_records := [conn_ready; conn_pending];
     admin_sessions := ["admin-1"] |}.

Definition unready_world : World := {| store := unready_store; outbox := [] |}.

Definition debug_context {Msg} (msg : Msg) : RequestContext Msg :=
  {| message := msg; connection_is_admin := true;
     settings := {[ "debug.auto_respond_presentation_request" := true ]} |}.

(** * Properties *)

(** A handler called over an administrative connection runs its body. *)
Ltac pass_decorators Hadmin :=
  unfold log_handling, admin_only; rewrite Hadmin.

(** Over any other connection the body does not run: nothing is sent and
    the store stays as it was. *)
Lemma admin_only_rejects {Msg} (func : RequestContext Msg → M unit)
    (context : RequestContext Msg) (w : World) :
  connection_is_admin context = false →
  ∃ err,
    log_handling (admin_only func) context w = (Raise err, w)
    ∧ exn_cls err = AccessDenied.
Proof.
  intros Hother. unfold log_handling, admin_only. rewrite Hother.
  by eexists.
Qed.

(** ** Pagination *)

Lemma apply_slice_length {A} (records : list A) (L O : Z) :
  0 < L → 0 ≤ O →
  Z.of_nat
    (length (take (Z.to_nat L)
               (drop (Z.to_nat (Z.min O (Z.of_nat (length records)))) records)))
  = Z.max 0 (Z.min L (Z.of_nat (length records) - O)).
Proof.
  intros HL HO. rewrite length_take, length_drop. lia.
Qed.

(** C3.  For a cursor with limit [L > 0] and offset [O >= 0] over [N]
    records, pagination returns (rather than raises) a slice of length
    [max 0 (min L (N - O))] and a page whose offset is [O]; the slice holds
    the records at positions [O], [O+1], ... in their order, so it is
    determined by the record ordering and the cursor, and it is empty when
    the offset is out of range. *)
Theorem paginate_apply_window {A} (records : list A) (L O : Z) :
  0 < L → 0 ≤ O →
  ∃ slice page,
    Paginate.apply (Paginate.Build L O) records = Ok (slice, page)
    ∧ Z.of_nat (length slice)
      = Z.max 0 (Z.min L (Z.of_nat (length records) - O))
    ∧ Page.offset page = O
    ∧ (∀ i : nat, (i < length slice)%nat →
         slice !! i = records !! (Z.to_nat O + i)%nat)
    ∧ (Z.of_nat (length records) ≤ O → slice = []).
Proof.
  intros HL HO. unfold Paginate.apply. simpl.
  destruct (Z.leb_spec L 0) as [Hle|_]; [lia|].
  eexists _, _. split; [reflexivity|]. simpl.
  split; [by apply apply_slice_length|].
  split; [reflexivity|]. split.
  - intros i Hi. rewrite length_take, length_drop in Hi.
    rewrite lookup_take_lt by lia. rewrite lookup_drop.
    f_equal. lia.
  - intros Hout. apply length_zero_iff_nil.
    rewrite length_take, length_drop. lia.
Qed.

Lemma paginate_apply_window_witness :
  ∃ slice page,
    Paginate.apply (Paginate.Build 2 1) [cred_offer; cred_stored; cred_proposed]
      = Ok (slice, page)
    ∧ Z.of_nat (length slice) = Z.max 0 (Z.min 2 (Z.of_nat 3 - 1))
    ∧ Page.offset page = 1
    ∧ (∀ i : nat, (i < length slice)%nat →
         slice !! i
         = [cred_offer; cred_stored; cred_proposed] !! (Z.to_nat 1 + i)%nat)
    ∧ (Z.of_nat 3 ≤ 1 → slice = []).
Proof.
  apply (paginate_apply_window [cred_offer; cred_stored; cred_proposed] 2 1); lia.
Defined.

(** ** Message registry *)

(** C9.  [MESSAGE_TYPES] registers thirteen of the fifteen message types
    of the external interface under the protocol namespace and version:
    presentation-request-received and presentation-sent are not among its
    keys, every other name of the interface is. *)
Theorem MESSAGE_TYPES_misses_two :
  MESSAGE_TYPES !! (protocol +:+ "/presentation-request-received") = None
  ∧ MESSAGE_TYPES !! (protocol +:+ "/presentation-sent") = None
  ∧ List.filter
      (λ name, bool_decide (MESSAGE_TYPES !! (protocol +:+ "/" +:+ name) = None))
      interface_message_types
    = ["presentation-request-received"; "presentation-sent"]
  ∧ size MESSAGE_TYPES = 13%nat.
Proof. vm_compute. repeat split. Qed.

(** ** Event bridge *)

Lemma send_to_each_spec (message : OutboundMessage) (sessions : list string)
    (w : World) :
  send_to_each message sessions w
  = (Ok tt, {| store := store w;
               outbox := (outbox w ++ map (send message) sessions)%list |}).
Proof.
  revert w. induction sessions as [|s rest IH]; intros w; simpl.
  - rewrite app_nil_r. by destruct w.
  - unfold bind, responder_send, emit. rewrite IH. simpl.
    by rewrite <- app_assoc.
Qed.

Lemma send_to_admins_spec (message : OutboundMessage) (w : World) :
  send_to_admins message w
  = (Ok tt, {| store := store w;
               outbox := (outbox w
                          ++ map (send message) (admin_sessions (store w)))%list |}).
Proof. unfold send_to_admins. apply send_to_each_spec. Qed.

(** C4.  On a credential-exchange event whose record is in state
    offer-received, every admin session is sent a credential-offer-received
    notification; in state credential-received, every admin session is sent
    a credential-received notification; in any other state nothing is
    sent. *)
Theorem issue_credential_event_forwarding (event : Event CredExRecord.t)
    (w : World) :
  let record := CredExRecord.deserialize (event_payload event) in
  let notified m :=
    (Ok tt, {| store := store w;
               outbox := (outbox w
                          ++ map (send (new_message m))
                               (admin_sessions (store w)))%list |}) in
  (CredExRecord.state record = CredExRecord.STATE_OFFER_RECEIVED →
     issue_credential_event_handler event w = notified (CredOfferRecv record)
     ∧ message_type (CredOfferRecv record) = "credential-offer-received")
  ∧ (CredExRecord.state record = CredExRecord.STATE_CREDENTIAL_RECEIVED →
     issue_credential_event_handler event w = notified (CredReceived record)
     ∧ message_type (CredReceived record) = "credential-received")
  ∧ (CredExRecord.state record ≠ CredExRecord.STATE_OFFER_RECEIVED →
     CredExRecord.state record ≠ CredExRecord.STATE_CREDENTIAL_RECEIVED →
     issue_credential_event_handler event w = (Ok tt, w)).
Proof.
  intros record notified. unfold issue_credential_event_handler.
  fold record. repeat split.
  - rewrite H. simpl. unfold bind, attribute, ret. simpl.
    apply send_to_admins_spec.
  - rewrite H. simpl. unfold bind, attribute, ret. simpl.
    apply send_to_admins_spec.
  - intros Ho Hc. rewrite bool_decide_eq_false_2; [reflexivity|].
    rewrite !elem_of_cons, elem_of_nil. tauto.
Qed.

Lemma issue_credential_event_forwarding_witness :
  issue_credential_event_handler {| topic := "issue_credential"; event_payload := cred_offer |}
    sample_world
  = (Ok tt, {| store := sample_store;
               outbox := [send (new_message (CredOfferRecv cred_offer)) "admin-1";
                          send (new_message (CredOfferRecv cred_offer)) "admin-2"] |})
  ∧ issue_credential_event_handler
      {| topic := "issue_credential"; event_payload := cred_stored |} sample_world
    = (Ok tt, {| store := sample_store;
                 outbox := [send (new_message (CredReceived cred_stored)) "admin-1";
                            send (new_message (CredReceived cred_stored)) "admin-2"] |})
  ∧ issue_credential_event_handler
      {| topic := "issue_credential"; event_payload := cred_proposed |} sample_world
    = (Ok tt, sample_world).
Proof.
  split; [|split].
  - apply (issue_credential_event_forwarding
             {| topic := "issue_credential"; event_payload := cred_offer |}
             sample_world).
    reflexivity.
  - apply (issue_credential_event_forwarding
             {| topic := "issue_credential"; event_payload := cred_stored |}
             sample_world).
    reflexivity.
  - apply (issue_credential_event_forwarding
             {| topic := "issue_credential"; event_payload := cred_proposed |}
             sample_world); discriminate.
Defined.

Lemma present_proof_event_handler_run `{IndyHolder} (event : Event PresExRecord.t)
    (w : World) :
  let record := PresExRecord.deserialize (event_payload event) in
  present_proof_event_handler event w
  = if String.eqb (PresExRecord.state record) PresExRecord.STATE_REQUEST_RECEIVED
    then
      match
        get_credentials_for_presentation_request_by_referent (store w)
          (PresExRecord.presentation_request record) [] 0 10 []
      with
      | Ok credentials =>
          (Ok tt,
           {| store := store w;
              outbox :=
                (outbox w
                 ++ map (send (new_message
                                 (PresRequestReceived
                                    (PresRequestReceived.Build record credentials
                                       (Some (Page.Build 10 10))))))
                      (admin_sessions (store w)))%list |})
      | Raise e => (Raise e, w)
      end
    else (Ok tt, w).
Proof.
  intros record. unfold present_proof_event_handler. fold record.
  destruct (String.eqb _ _); [|reflexivity].
  unfold bind, with_session, PresRequestReceived.retrieve_matching_credentials.
  simpl.
  destruct (get_credentials_for_presentation_request_by_referent _ _ _ _ _ _);
    [apply send_to_admins_spec|reflexivity].
Qed.

(** C5.  On a presentation-exchange event, admin sessions are notified only
    when the record is in state request-received; the notification then
    carries the credentials that the holder store returns for the record's
    proof request, asked from offset 0 with a page size of 10, and it is
    sent only once that lookup has returned. *)
Theorem present_proof_event_forwarding `{IndyHolder} (event : Event PresExRecord.t)
    (w : World) :
  let record := PresExRecord.deserialize (event_payload event) in
  (PresExRecord.state record ≠ PresExRecord.STATE_REQUEST_RECEIVED →
     present_proof_event_handler event w = (Ok tt, w))
  ∧ (PresExRecord.state record = PresExRecord.STATE_REQUEST_RECEIVED →
     match
       get_credentials_for_presentation_request_by_referent (store w)
         (PresExRecord.presentation_request record) [] 0 10 []
     with
     | Ok credentials =>
         ∃ page,
           present_proof_event_handler event w
           = (Ok tt,
              {| store := store w;
                 outbox :=
                   (outbox w
                    ++ map (send (new_message
                                    (PresRequestReceived
                                       (PresRequestReceived.Build record
                                          credentials page))))
                         (admin_sessions (store w)))%list |})
     | Raise e => present_proof_event_handler event w = (Raise e, w)
     end).
Proof.
  intros record. rewrite present_proof_event_handler_run. fold record. split.
  - intros Hne. apply String.eqb_neq in Hne. by rewrite Hne.
  - intros Heq. apply String.eqb_eq in Heq. rewrite Heq.
    destruct (get_credentials_for_presentation_request_by_referent _ _ _ _ _ _);
      [by eexists|reflexivity].
Qed.

Lemma present_proof_event_forwarding_witness :
  @present_proof_event_handler sample_holder
    {| topic := "present_proof"; event_payload := pres_done |} sample_world
  = (Ok tt, sample_world)
  ∧ ∃ page,
      @present_proof_event_handler sample_holder
        {| topic := "present_proof"; event_payload := pres_request |} sample_world
      = (Ok tt,
         {| store := sample_store;
            outbox :=
              map (send (new_message
                           (PresRequestReceived
                              (PresRequestReceived.Build pres_request
                                 ["credential-a"; "credential-b"] page))))
                ["admin-1"; "admin-2"] |}).
Proof.
  split.
  - apply (@present_proof_event_forwarding sample_holder
             {| topic := "present_proof"; event_payload := pres_done |}
             sample_world).
    discriminate.
  - apply (proj2 (@present_proof_event_forwarding sample_holder
             {| topic := "present_proof"; event_payload := pres_request |}
             sample_world)).
    reflexivity.
Defined.

(** C10.  Every presentation-request-received notification the event bridge
    sends carries a page with count 10 and offset 10, whatever list of
    matching credentials the holder store returned for it. *)
Theorem presentation_request_received_page `{IndyHolder}
    (event : Event PresExRecord.t) (w : World) (notification : OutboundMessage)
    (session : string) :
  send notification session ∈ emitted (present_proof_event_handler event) w →
  ∃ credentials,
    get_credentials_for_presentation_request_by_referent (store w)
      (PresExRecord.presentation_request
         (PresExRecord.deserialize (event_payload event))) [] 0 10 []
    = Ok credentials
    ∧ notification
      = new_message
          (PresRequestReceived
             (PresRequestReceived.Build
                (PresExRecord.deserialize (event_payload event)) credentials
                (Some (Page.Build 10 10)))).
Proof.
  unfold emitted. rewrite present_proof_event_handler_run.
  destruct (String.eqb _ _).
  - destruct (get_credentials_for_presentation_request_by_referent _ _ _ _ _ _)
      as [credentials|e]; simpl.
    + rewrite drop_app_length. intros Hin.
      apply list_elem_of_fmap in Hin as (s & Heq & _).
      exists credentials. split; [reflexivity|]. congruence.
    + rewrite drop_all. by intros ?%elem_of_nil.
  - simpl. rewrite drop_all. by intros ?%elem_of_nil.
Qed.

Lemma presentation_request_received_page_witness :
  let notification :=
    new_message
      (PresRequestReceived
         (PresRequestReceived.Build pres_request ["credential-a"; "credential-b"]
            (Some (Page.Build 10 10)))) in
  send notification "admin-1"
  ∈ emitted
      (@present_proof_event_handler sample_holder
         {| topic := "present_proof"; event_payload := pres_request |})
      sample_world
  ∧ ∃ credentials,
      Ok ["credential-a"; "credential-b"] = Ok credentials
      ∧ length credentials = 2%nat
      ∧ notification
        = new_message
            (PresRequestReceived
               (PresRequestReceived.Build pres_request credentials
                  (Some (Page.Build 10 10)))).
Proof.
  intros notification.
  assert (Hsent :
    send notification "admin-1"
    ∈ emitted
        (@present_proof_event_handler sample_holder
           {| topic := "present_proof"; event_payload := pres_request |})
        sample_world) by (vm_compute; apply list_elem_of_here).
  split; [exact Hsent|].
  destruct (@presentation_request_received_page sample_holder _ _ _ _ Hsent)
    as (credentials & Hlookup & Hmsg).
  exists credentials. split; [exact Hlookup|]. split; [|exact Hmsg].
  vm_compute in Hlookup. by injection Hlookup as <-.
Defined.

(** ** Query handlers *)

Lemma map_serialize (l : list CredExRecord.t) : map CredExRecord.serialize l = l.
Proof. unfold CredExRecord.serialize. apply map_id. Qed.

Lemma CredGetList_handle_run (context : RequestContext CredGetList.t) (w : World) :
  connection_is_admin context = true →
  let self := message context in
  let selected :=
    if truthy (CredGetList.states self) then
      filter (λ c, CredExRecord.state c ∈ default [] (CredGetList.states self))
        (CredExRecord_query (store w))
    else CredExRecord_query (store w) in
  CredGetList.handle context w
  = match Paginate.apply (CredGetList.paginate self) selected with
    | Ok (slice, page) =>
        (Ok tt,
         {| store := store w;
            outbox := (outbox w
                       ++ [send_reply (new_message (CredList slice (Some page)))])%list |})
    | Raise e => (Raise e, w)
    end.
Proof.
  intros Hadmin self selected.
  unfold CredGetList.handle. pass_decorators Hadmin.
  unfold bind, with_session, lift. simpl. fold self. fold selected.
  destruct (Paginate.apply _ selected) as [[slice page]|e]; [|reflexivity].
  unfold responder_send_reply, emit. simpl. by rewrite map_serialize.
Qed.

(** The handler on a message object that carries a non-empty states list:
    it paginates exactly the queried records whose state is in the
    requested set, in the order of the query, and replies with the
    resulting credentials-list; the store is left as it was, and when no
    record matches, a valid cursor gives a reply with an empty slice. *)
Lemma credentials_get_list_states_filter (context : RequestContext CredGetList.t)
    (w : World) (wanted : list string) :
  connection_is_admin context = true →
  CredGetList.states (message context) = Some wanted →
  wanted ≠ [] →
  ∃ selected,
    selected = filter (λ c, CredExRecord.state c ∈ wanted)
                 (CredExRecord_query (store w))
    ∧ (∀ c, c ∈ selected
            ↔ c ∈ CredExRecord_query (store w) ∧ CredExRecord.state c ∈ wanted)
    ∧ sublist selected (CredExRecord_query (store w))
    ∧ match Paginate.apply (CredGetList.paginate (message context)) selected with
      | Ok (slice, page) =>
          CredGetList.handle context w
          = (Ok tt,
             {| store := store w;
                outbox :=
                  (outbox w
                   ++ [send_reply (new_message (CredList slice (Some page)))])%list |})
      | Raise e => CredGetList.handle context w = (Raise e, w)
      end
    ∧ store (snd (CredGetList.handle context w)) = store w
    ∧ (selected = [] →
       0 < Paginate.limit (CredGetList.paginate (message context)) →
       emitted (CredGetList.handle context) w
       = [send_reply
            (new_message
               (CredList []
                  (Some (Page.Build 0
                           (Paginate.offset
                              (CredGetList.paginate (message context)))))))]).
Proof.
  intros Hadmin Hstates Hne.
  pose proof (CredGetList_handle_run context w Hadmin) as Hrun.
  simpl in Hrun. rewrite Hstates in Hrun.
  assert (Htruthy : truthy (Some wanted) = true) by (by destruct wanted).
  rewrite Htruthy in Hrun. simpl in Hrun.
  eexists. split; [reflexivity|].
  split; [intros c; rewrite list_elem_of_filter; tauto|].
  split; [apply sublist_filter|].
  unfold emitted. rewrite Hrun.
  set (selected := filter _ _).
  split; [|split].
  - destruct (Paginate.apply _ selected) as [[slice page]|e]; reflexivity.
  - destruct (Paginate.apply _ selected) as [[slice page]|e]; reflexivity.
  - intros Hempty Hlimit. rewrite Hempty. unfold Paginate.apply.
    destruct (Z.leb_spec (Paginate.limit (CredGetList.paginate (message context))) 0);
      [lia|].
    simpl. rewrite drop_nil, take_nil. simpl. by rewrite drop_app_length.
Qed.

Lemma credentials_get_list_states_filter_witness :
  ∃ selected,
    selected = [cred_offer; cred_proposed]
    ∧ CredGetList.handle
        (admin_context
           (CredGetList.Build admin_request (Paginate.Build 1 1)
              (Some ["proposal_sent"; "offer_received"])))
        sample_world
      = (Ok tt,
         {| store := sample_store;
            outbox :=
              [send_reply
                 (new_message
                    (CredList [cred_proposed] (Some (Page.Build 1 1))))] |}).
Proof.
  destruct (credentials_get_list_states_filter
              (admin_context
                 (CredGetList.Build admin_request (Paginate.Build 1 1)
                    (Some ["proposal_sent"; "offer_received"])))
              sample_world ["proposal_sent"; "offer_received"]
              eq_refl eq_refl ltac:(discriminate))
    as (selected & Hsel & _ & _ & Hrun & _).
  exists selected. split.
  - rewrite Hsel. vm_compute. reflexivity.
  - rewrite Hsel in Hrun. exact Hrun.
Defined.

Lemma OneOf_refuses_list (choices : list string) (items : list string) :
  OneOf (map str_value choices) (list_value items) = false.
Proof.
  unfold OneOf. induction choices as [|choice rest IH]; [reflexivity|].
  simpl. exact IH.
Qed.

(** C7.  The schema of credentials-get-list refuses every message that
    carries a states list, whatever the list: the validator of the field
    compares the list itself with the state names.  A message the schema
    lets through has no states filter, so the handler never filters by
    state. *)
Theorem credentials_get_list_states_refused (message : CredGetListFields.data) :
  (∀ wanted, CredGetListFields.states message = Some wanted →
     ∃ e, CredGetListFields.deserialize message = Raise e
          ∧ exn_cls e = BaseModelError)
  ∧ (∀ command, CredGetListFields.deserialize message = Ok command →
       CredGetList.states command = None).
Proof.
  unfold CredGetListFields.deserialize. split.
  - intros wanted ->.
    change CredGetListFields.states_choices
      with (map str_value
              [CredExRecord.STATE_ACKED; CredExRecord.STATE_CREDENTIAL_RECEIVED;
               CredExRecord.STATE_ISSUED; CredExRecord.STATE_OFFER_RECEIVED;
               CredExRecord.STATE_OFFER_SENT; CredExRecord.STATE_PROPOSAL_RECEIVED;
               CredExRecord.STATE_PROPOSAL_SENT;
               CredExRecord.STATE_REQUEST_RECEIVED;
               CredExRecord.STATE_REQUEST_SENT]).
    rewrite OneOf_refuses_list. by eexists.
  - intros command.
    destruct (CredGetListFields.states message) as [items|];
      [|by intros [= <-]].
    change CredGetListFields.states_choices
      with (map str_value
              [CredExRecord.STATE_ACKED; CredExRecord.STATE_CREDENTIAL_RECEIVED;
               CredExRecord.STATE_ISSUED; CredExRecord.STATE_OFFER_RECEIVED;
               CredExRecord.STATE_OFFER_SENT; CredExRecord.STATE_PROPOSAL_RECEIVED;
               CredExRecord.STATE_PROPOSAL_SENT;
               CredExRecord.STATE_REQUEST_RECEIVED;
               CredExRecord.STATE_REQUEST_SENT]).
    by rewrite OneOf_refuses_list.
Qed.

Lemma credentials_get_list_states_refused_witness :
  (∃ e,
     CredGetListFields.deserialize
       (CredGetListFields.Build admin_request None (Some ["offer_received"]))
     = Raise e
     ∧ exn_cls e = BaseModelError)
  ∧ CredGetList.states
      (CredGetList.Build admin_request (Paginate.Build 10 0) None)
    = None.
Proof.
  split.
  - apply (proj1 (credentials_get_list_states_refused
                    (CredGetListFields.Build admin_request None
                       (Some ["offer_received"])))
             ["offer_received"]).
    reflexivity.
  - apply (proj2 (credentials_get_list_states_refused
                    (CredGetListFields.Build admin_request None None))).
    reflexivity.
Defined.

(** ** Credential commands *)

Lemma assign_thread_from_correlated (m : OutboundMessage) (request : AgentMessage.t) :
  thread_correlated (assign_thread_from m request) request = true.
Proof. unfold thread_correlated, assign_thread_from. simpl. apply String.eqb_refl. Qed.

Lemma retrieve_by_id_raises {R} (record_id : R → string) (records : list R)
    (wanted : string) (e : exn) :
  retrieve_by_id record_id records wanted = Raise e →
  isinstance e [StorageNotFoundError] = true.
Proof.
  unfold retrieve_by_id. destruct (List.find _ _); [discriminate|].
  by intros [= <-].
Qed.

(** C6.  A send-credential-proposal command whose connection does not exist
    or is not ready is answered by one problem report with who_retries
    "none", thread-correlated to the command; the store is untouched and
    nothing is dispatched.  When the connection is ready, the credential
    engine creates the proposal record, a credential-proposal message is
    dispatched on that connection, and the reply is a thread-correlated
    credential-exchange message made from that record. *)
Theorem send_credential_proposal_outcomes `{CredentialManager}
    (context : RequestContext SendCredProposal.t) (w : World) :
  connection_is_admin context = true →
  let msg := message context in
  let connection_id := SendCredProposal.connection_id msg in
  ((∀ c, ConnRecord_retrieve_by_id (store w) connection_id = Ok c →
         ConnRecord.is_ready c = false) →
   ∃ report text,
     SendCredProposal.handle context w
     = (Ok tt, {| store := store w;
                  outbox := (outbox w ++ [send_reply report])%list |})
     ∧ payload report = Admin (ProblemReport text "none")
     ∧ thread_correlated report (SendCredProposal.base msg) = true)
  ∧ (∀ c, ConnRecord_retrieve_by_id (store w) connection_id = Ok c →
          ConnRecord.is_ready c = true →
     match
       create_proposal (store w) connection_id (SendCredProposal.comment msg)
         (SendCredProposal.credential_proposal msg)
         (SendCredProposal.cred_def_id msg)
     with
     | (Ok created, session) =>
         ∃ reply,
           SendCredProposal.handle context w
           = (Ok tt,
              {| store := session;
                 outbox :=
                   (outbox w
                    ++ [send
                          (new_protocol_message
                             (CredentialProposal (SendCredProposal.comment msg)
                                (SendCredProposal.credential_proposal msg)
                                (SendCredProposal.cred_def_id msg)))
                          connection_id;
                        send_reply reply])%list |})
           ∧ payload reply = Admin (CredExchange created)
           ∧ message_type (CredExchange created) = "credential-exchange"
           ∧ thread_correlated reply (SendCredProposal.base msg) = true
     | (Raise e, session) =>
         SendCredProposal.handle context w
         = (Raise e, {| store := session; outbox := outbox w |})
     end).
Proof.
  intros Hadmin msg connection_id.
  unfold SendCredProposal.handle. pass_decorators Hadmin.
  unfold try_except, with_session. fold msg. fold connection_id. split.
  - intros Hunready.
    destruct (ConnRecord_retrieve_by_id (store w) connection_id) as [c|e] eqn:Hc.
    + rewrite (Hunready c eq_refl). simpl.
      eexists _, _. split; [reflexivity|]. split; [reflexivity|].
      apply assign_thread_from_correlated.
    + rewrite (retrieve_by_id_raises _ _ _ _ Hc).
      eexists _, _. split; [reflexivity|]. split; [reflexivity|].
      apply assign_thread_from_correlated.
  - intros c Hc Hready. rewrite Hc, Hready. simpl.
    unfold bind, call_engine.
    destruct (create_proposal _ _ _ _ _) as [[created|e] session]; simpl.
    + eexists. split.
      * unfold responder_send, responder_send_reply, emit. simpl.
        rewrite <- app_assoc. reflexivity.
      * split; [reflexivity|]. split; [reflexivity|].
        apply assign_thread_from_correlated.
    + reflexivity.
Qed.

Lemma send_credential_proposal_outcomes_witness :
  (∃ report text,
     @SendCredProposal.handle sample_credential_manager
       (admin_context (proposal_command "conn-404")) sample_world
     = (Ok tt, {| store := sample_store; outbox := [send_reply report] |})
     ∧ payload report = Admin (ProblemReport text "none")
     ∧ thread_correlated report admin_request = true)
  ∧ (∃ report text,
     @SendCredProposal.handle sample_credential_manager
       (admin_context (proposal_command "conn-2")) sample_world
     = (Ok tt, {| store := sample_store; outbox := [send_reply report] |})
     ∧ payload report = Admin (ProblemReport text "none")
     ∧ thread_correlated report admin_request = true)
  ∧ (∃ reply,
     @SendCredProposal.handle sample_credential_manager
       (admin_context (proposal_command "conn-1")) sample_world
     = (Ok tt,
        {| store :=
             snd (@create_proposal sample_credential_manager sample_store
                    "conn-1" None "{preview}" (Some "cred-def-1"));
           outbox :=
             [send
                (new_protocol_message
                   (CredentialProposal None "{preview}" (Some "cred-def-1")))
                "conn-1";
              send_reply reply] |})
     ∧ payload reply
       = Admin (CredExchange
                  (CredExRecord.Build "cred-new" "conn-1" "thread-new"
                     "proposal_sent" "{preview}"))
     ∧ message_type
         (CredExchange
            (CredExRecord.Build "cred-new" "conn-1" "thread-new"
               "proposal_sent" "{preview}"))
       = "credential-exchange"
     ∧ thread_correlated reply admin_request = true).
Proof.
  split; [|split].
  - apply (proj1 (@send_credential_proposal_outcomes sample_credential_manager
                    (admin_context (proposal_command "conn-404")) sample_world
                    eq_refl)).
    intros c. vm_compute. discriminate.
  - apply (proj1 (@send_credential_proposal_outcomes sample_credential_manager
                    (admin_context (proposal_command "conn-2")) sample_world
                    eq_refl)).
    intros c. vm_compute. by intros [= <-].
  - exact (proj2 (@send_credential_proposal_outcomes sample_credential_manager
                    (admin_context (proposal_command "conn-1")) sample_world
                    eq_refl)
             conn_ready eq_refl eq_refl).
Defined.

Lemma CredOfferAccept_handle_run `{ExceptionReporting} `{CredentialManager}
    (context : RequestContext CredOfferAccept.t) (w : World)
    (cred_ex_record : CredExRecord.t) (connection_record : ConnRecord.t) :
  connection_is_admin context = true →
  CredExRecord_retrieve_by_id (store w)
    (CredOfferAccept.credential_exchange_id (message context))
  = Ok cred_ex_record →
  get_connection (store w) (CredExRecord.connection_id cred_ex_record)
  = Ok connection_record →
  CredOfferAccept.handle context w
  = match
      create_request (store w) cred_ex_record (ConnRecord.my_did connection_record)
    with
    | (Ok (updated, credential_request_message), session) =>
        (Ok tt,
         {| store := session;
            outbox :=
              (outbox w
               ++ [send credential_request_message
                     (CredExRecord.connection_id cred_ex_record);
                   send_reply (new_message (CredRequestSent updated))])%list |})
    | (Raise e, session) => (Raise e, {| store := session; outbox := outbox w |})
    end.
Proof.
  intros Hadmin Hrecord Hconn.
  unfold CredOfferAccept.handle. pass_decorators Hadmin.
  unfold bind at 1. unfold ExceptionReporter, seq_block, stmt, with_session.
  rewrite Hrecord. simpl. unfold bind at 2, local, ret. simpl.
  rewrite Hconn. simpl. unfold bind, call_engine, ret. simpl.
  destruct (create_request _ _ _) as [[[updated m]|e] session]; simpl;
    [|reflexivity].
  unfold responder_send_reply, emit. simpl. by rewrite <- app_assoc.
Qed.

(** C2.  A credential-offer-accept command for an existing credential
    exchange record, whatever its state, whose connection can be retrieved,
    calls the credential engine's request creation on that record; the
    request message the engine returns is dispatched on the record's
    connection and the reply is a credential-request-sent message made
    from the record the engine returns.  The handler itself checks nothing
    about the state: an error of the engine passes through as it is. *)
Theorem credential_offer_accept_requests `{ExceptionReporting} `{CredentialManager}
    (context : RequestContext CredOfferAccept.t) (w : World)
    (cred_ex_record : CredExRecord.t) (connection_record : ConnRecord.t) :
  connection_is_admin context = true →
  CredExRecord_retrieve_by_id (store w)
    (CredOfferAccept.credential_exchange_id (message context))
  = Ok cred_ex_record →
  get_connection (store w) (CredExRecord.connection_id cred_ex_record)
  = Ok connection_record →
  match
    create_request (store w) cred_ex_record (ConnRecord.my_did connection_record)
  with
  | (Ok (updated, credential_request_message), session) =>
      ∃ reply,
        CredOfferAccept.handle context w
        = (Ok tt,
           {| store := session;
              outbox :=
                (outbox w
                 ++ [send credential_request_message
                       (CredExRecord.connection_id cred_ex_record);
                     send_reply reply])%list |})
        ∧ payload reply = Admin (CredRequestSent updated)
        ∧ message_type (CredRequestSent updated) = "credential-request-sent"
  | (Raise e, session) =>
      CredOfferAccept.handle context w
      = (Raise e, {| store := session; outbox := outbox w |})
  end.
Proof.
  intros Hadmin Hrecord Hconn.
  rewrite (CredOfferAccept_handle_run context w _ _ Hadmin Hrecord Hconn).
  destruct (create_request _ _ _) as [[[updated m]|e] session]; [|reflexivity].
  eexists. split; [reflexivity|]. split; reflexivity.
Qed.

Lemma credential_offer_accept_requests_witness :
  ∃ reply,
    @CredOfferAccept.handle (sample_reporting true) sample_credential_manager
      (admin_context (accept_command "cred-2")) sample_world
    = (Ok tt,
       {| store := sample_store;
          outbox :=
            [send (new_protocol_message (CredentialRequest "did:sov:holder"))
               "conn-1";
             send_reply reply] |})
    ∧ payload reply
      = Admin (CredRequestSent
                 (CredExRecord.Build "cred-2" "conn-1" "thread-2" "request_sent"
                    "{}"))
    ∧ message_type
        (CredRequestSent
           (CredExRecord.Build "cred-2" "conn-1" "thread-2" "request_sent" "{}"))
      = "credential-request-sent".
Proof.
  exact (@credential_offer_accept_requests (sample_reporting true)
           sample_credential_manager (admin_context (accept_command "cred-2"))
           sample_world cred_stored conn_ready eq_refl eq_refl eq_refl).
Defined.

(** C8.  The credential-request-sent reply of a successful
    credential-offer-accept command carries no thread decorator: it is not
    thread-correlated to the command, unlike the replies of the sibling
    handlers, which call [assign_thread_from] before replying. *)
Theorem credential_request_sent_without_thread `{ExceptionReporting}
    `{CredentialManager} (context : RequestContext CredOfferAccept.t) (w : World)
    (cred_ex_record updated : CredExRecord.t) (connection_record : ConnRecord.t)
    (credential_request_message : OutboundMessage) (session : Store) :
  connection_is_admin context = true →
  CredExRecord_retrieve_by_id (store w)
    (CredOfferAccept.credential_exchange_id (message context))
  = Ok cred_ex_record →
  get_connection (store w) (CredExRecord.connection_id cred_ex_record)
  = Ok connection_record →
  create_request (store w) cred_ex_record (ConnRecord.my_did connection_record)
  = (Ok (updated, credential_request_message), session) →
  ∃ reply,
    emitted (CredOfferAccept.handle context) w
    = [send credential_request_message (CredExRecord.connection_id cred_ex_record);
       send_reply reply]
    ∧ payload reply = Admin (CredRequestSent updated)
    ∧ thread reply = None
    ∧ thread_correlated reply (CredOfferAccept.base (message context)) = false.
Proof.
  intros Hadmin Hrecord Hconn Hengine. unfold emitted.
  rewrite (CredOfferAccept_handle_run context w _ _ Hadmin Hrecord Hconn), Hengine.
  simpl. rewrite drop_app_length.
  eexists. split; [reflexivity|]. repeat split.
Qed.

Lemma credential_request_sent_without_thread_witness :
  ∃ reply,
    emitted
      (@CredOfferAccept.handle (sample_reporting true) sample_credential_manager
         (admin_context (accept_command "cred-1")))
      sample_world
    = [send (new_protocol_message (CredentialRequest "did:sov:holder")) "conn-1";
       send_reply reply]
    ∧ payload reply
      = Admin (CredRequestSent
                 (CredExRecord.Build "cred-1" "conn-1" "thread-1" "request_sent"
                    "{}"))
    ∧ thread reply = None
    ∧ thread_correlated reply admin_request = false.
Proof.
  exact (@credential_request_sent_without_thread (sample_reporting true)
           sample_credential_manager (admin_context (accept_command "cred-1"))
           sample_world cred_offer _ conn_ready _ sample_store
           eq_refl eq_refl eq_refl eq_refl).
Defined.

(** ** Presentation commands *)

Lemma get_pres_ex_record_invalid (session : Store) (pres_ex_id : string) :
  (∀ r, PresExRecord_retrieve_by_id session pres_ex_id = Ok r →
        PresExRecord.state r ≠ PresExRecord.STATE_REQUEST_RECEIVED) →
  ∃ text,
    PresRequestApprove.get_pres_ex_record session pres_ex_id
    = Raise (Exn InvalidPresentationExchange text).
Proof.
  intros Hstate. unfold PresRequestApprove.get_pres_ex_record.
  destruct (PresExRecord_retrieve_by_id session pres_ex_id) as [r|e] eqn:Hr.
  - specialize (Hstate r eq_refl). apply String.eqb_neq in Hstate.
    rewrite Hstate. simpl. by eexists.
  - rewrite (retrieve_by_id_raises _ _ _ _ Hr). by eexists.
Qed.

(** C1.  A presentation-request-approve command whose presentation exchange
    record does not exist, or is in a state other than request-received,
    fails: the record lookup raises [InvalidPresentationExchange], the
    handler ends with an exception, and its only message is one problem
    report for that error, sent as a reply and thread-correlated to the
    command.  Nothing is dispatched to the remote party and the store is
    left as it was. *)
Theorem presentation_request_approve_guard `{ExceptionReporting}
    `{PresentationManager} (context : RequestContext PresRequestApprove.t)
    (w : World) :
  connection_is_admin context = true →
  (∀ r, PresExRecord_retrieve_by_id (store w)
          (PresRequestApprove.presentation_exchange_id (message context))
        = Ok r →
        PresExRecord.state r ≠ PresExRecord.STATE_REQUEST_RECEIVED) →
  ∃ err report raised,
    PresRequestApprove.get_pres_ex_record (store w)
      (PresRequestApprove.presentation_exchange_id (message context))
    = Raise err
    ∧ exn_cls err = InvalidPresentationExchange
    ∧ PresRequestApprove.handle context w
      = (Raise raised,
         {| store := store w;
            outbox := (outbox w ++ [send_reply report])%list |})
    ∧ raised = (if raises_again then err
                else Exn UnboundLocalError "pres_ex_record")
    ∧ payload report = Admin (ProblemReport (explain err) (retry_hint err))
    ∧ thread_correlated report (PresRequestApprove.base (message context)) = true
    ∧ (∀ m connection_id,
         send m connection_id ∉ emitted (PresRequestApprove.handle context) w).
Proof.
  intros Hadmin Hstate.
  destruct (get_pres_ex_record_invalid _ _ Hstate) as [text Herr].
  assert (Hrun :
    PresRequestApprove.handle context w
    = (Raise (if raises_again then Exn InvalidPresentationExchange text
              else Exn UnboundLocalError "pres_ex_record"),
       {| store := store w;
          outbox :=
            (outbox w
             ++ [send_reply
                   (assign_thread_from
                      (new_message
                         (ProblemReport
                            (explain (Exn InvalidPresentationExchange text))
                            (retry_hint (Exn InvalidPresentationExchange text))))
                      (PresRequestApprove.base (message context)))])%list |})).
  { unfold PresRequestApprove.handle. pass_decorators Hadmin.
    unfold bind at 1. unfold ExceptionReporter at 1. unfold stmt, with_session.
    rewrite Herr. simpl. unfold bind at 1, responder_send_reply, emit. simpl.
    destruct raises_again; [reflexivity|].
    unfold ret, bind at 1. unfold ExceptionReporter at 1. unfold stmt. simpl.
    reflexivity. }
  eexists _, _, _. split; [exact Herr|]. split; [reflexivity|].
  split; [exact Hrun|]. split; [reflexivity|]. split; [reflexivity|].
  split; [apply assign_thread_from_correlated|].
  intros m connection_id. unfold emitted. rewrite Hrun. simpl.
  rewrite drop_app_length. rewrite list_elem_of_singleton. discriminate.
Qed.

Lemma presentation_request_approve_guard_witness :
  ∃ err report raised,
    PresRequestApprove.get_pres_ex_record sample_store "pres-2" = Raise err
    ∧ exn_cls err = InvalidPresentationExchange
    ∧ @PresRequestApprove.handle (sample_reporting false)
        sample_presentation_manager (admin_context (approve_command "pres-2"))
        sample_world
      = (Raise raised,
         {| store := sample_store; outbox := [send_reply report] |})
    ∧ raised = Exn UnboundLocalError "pres_ex_record"
    ∧ payload report = Admin (ProblemReport (exn_text err) "none")
    ∧ thread_correlated report admin_request = true
    ∧ (∀ m connection_id,
         send m connection_id
         ∉ emitted
             (@PresRequestApprove.handle (sample_reporting false)
                sample_presentation_manager
                (admin_context (approve_command "pres-2")))
             sample_world).
Proof.
  apply (@presentation_request_approve_guard (sample_reporting false)
           sample_presentation_manager (admin_context (approve_command "pres-2"))
           sample_world eq_refl).
  intros r. vm_compute. by intros [= <-].
Defined.

(** ** The other replies *)

(** The presentations-list reply is the page that pagination cuts from the
    prover's records that pass the post-filter. *)
Lemma PresGetList_handle_run (context : RequestContext PresGetList.t) (w : World) :
  connection_is_admin context = true →
  let post_filter_positive :=
    (filter_role PresExRecord.ROLE_PROVER
     :: match PresGetList.connection_id (message context) with
        | Some v => [filter_connection_id v]
        | None => []
        end
     ++ match PresGetList.verified (message context) with
        | Some v => [filter_verified v]
        | None => []
        end)%list in
  PresGetList.handle context w
  = match
      Paginate.apply (PresGetList.paginate (message context))
        (PresExRecord_query (store w) post_filter_positive)
    with
    | Ok (slice, page) =>
        (Ok tt,
         {| store := store w;
            outbox :=
              (outbox w
               ++ [send_reply (new_message (PresList slice (Some page)))])%list |})
    | Raise e => (Raise e, w)
    end.
Proof.
  intros Hadmin post_filter_positive.
  unfold PresGetList.handle. pass_decorators Hadmin.
  unfold bind, with_session, lift. simpl. fold post_filter_positive.
  destruct (Paginate.apply _ _) as [[slice page]|e]; [|reflexivity].
  unfold responder_send_reply, emit, PresExRecord.serialize. simpl.
  by rewrite map_id.
Qed.

(** An approved presentation request: the presentation goes out on the
    connection of the record and the presentation-sent reply is
    thread-correlated to the command. *)
Lemma presentation_request_approve_sends `{ExceptionReporting}
    `{PresentationManager} (context : RequestContext PresRequestApprove.t)
    (w : World) (pres_ex_record updated : PresExRecord.t)
    (conn_record : ConnRecord.t) (presentation : OutboundMessage)
    (session : Store) :
  connection_is_admin context = true →
  PresRequestApprove.get_pres_ex_record (store w)
    (PresRequestApprove.presentation_exchange_id (message context))
  = Ok pres_ex_record →
  get_connection (store w) (PresExRecord.connection_id pres_ex_record)
  = Ok conn_record →
  create_presentation (store w) pres_ex_record
    (RequestedCreds
       (PresRequestApprove.self_attested_attributes (message context))
       (PresRequestApprove.requested_attributes (message context))
       (PresRequestApprove.requested_predicates (message context)))
    (PresRequestApprove.comment (message context))
  = (Ok (updated, presentation), session) →
  ∃ reply,
    PresRequestApprove.handle context w
    = (Ok tt,
       {| store := session;
          outbox :=
            (outbox w
             ++ [send presentation (ConnRecord.connection_id conn_record);
                 send_reply reply])%list |})
    ∧ payload reply = Admin (PresSent updated)
    ∧ thread_correlated reply (PresRequestApprove.base (message context)) = true.
Proof.
  intros Hadmin Hrecord Hconn Hengine.
  unfold PresRequestApprove.handle. pass_decorators Hadmin.
  unfold bind at 1. unfold ExceptionReporter at 1. unfold stmt, with_session.
  rewrite Hrecord. simpl.
  unfold bind at 1. unfold ExceptionReporter at 1. unfold stmt. simpl.
  unfold bind at 1, local, ret, with_session. simpl. rewrite Hconn. simpl.
  unfold bind at 1. unfold ExceptionReporter at 1. unfold stmt. simpl.
  unfold bind at 1, call_engine. simpl. rewrite Hengine. simpl.
  unfold bind, responder_send, responder_send_reply, emit. simpl.
  eexists. split; [by rewrite <- app_assoc|].
  split; [reflexivity|apply assign_thread_from_correlated].
Qed.

(** A presentation proposal on a valid connection: the proposal goes out
    on that connection and the presentation-exchange reply is
    thread-correlated to the command. *)
Lemma send_presentation_proposal_reply `{ExceptionReporting}
    `{PresentationManager} (context : RequestContext SendPresProposal.t)
    (w : World) (conn_record : ConnRecord.t) (created : PresExRecord.t)
    (session : Store) :
  connection_is_admin context = true →
  let msg := message context in
  let proposal :=
    PresentationProposal (SendPresProposal.comment msg)
      (SendPresProposal.presentation_proposal msg) in
  get_connection (store w) (SendPresProposal.connection_id msg) = Ok conn_record →
  create_exchange_for_proposal (store w) (SendPresProposal.connection_id msg)
    proposal
    (py_or (SendPresProposal.auto_present msg)
       (settings context !! "debug.auto_respond_presentation_request"))
  = (Ok created, session) →
  ∃ reply,
    SendPresProposal.handle context w
    = (Ok tt,
       {| store := session;
          outbox :=
            (outbox w
             ++ [send (new_protocol_message proposal)
                   (SendPresProposal.connection_id msg);
                 send_reply reply])%list |})
    ∧ payload reply = Admin (PresExchange created)
    ∧ thread_correlated reply (SendPresProposal.base msg) = true.
Proof.
  intros Hadmin msg proposal Hconn Hengine.
  unfold SendPresProposal.handle. pass_decorators Hadmin.
  unfold bind at 1. unfold ExceptionReporter at 1. unfold stmt, with_session.
  fold msg. rewrite Hconn. simpl.
  unfold bind at 1, call_engine. fold proposal. rewrite Hengine. simpl.
  unfold bind, responder_send, responder_send_reply, emit. simpl.
  eexists. split; [by rewrite <- app_assoc|].
  split; [reflexivity|apply assign_thread_from_correlated].
Qed.

(** * Further properties of the handlers *)

(** ** Record lookups *)

Lemma retrieve_by_id_found {R} (record_id : R → string) (records : list R)
    (wanted : string) (r : R) :
  retrieve_by_id record_id records wanted = Ok r →
  r ∈ records ∧ record_id r = wanted.
Proof.
  unfold retrieve_by_id.
  destruct (List.find _ records) as [found|] eqn:Hfind; [|discriminate].
  intros [= <-]. apply find_some in Hfind as [Hin Heq].
  split; [by apply list_elem_of_In|by apply String.eqb_eq].
Qed.

Lemma retrieve_by_id_missing {R} (record_id : R → string) (records : list R)
    (wanted : string) (e : exn) :
  retrieve_by_id record_id records wanted = Raise e →
  ∀ r, r ∈ records → record_id r ≠ wanted.
Proof.
  unfold retrieve_by_id.
  destruct (List.find _ records) as [found|] eqn:Hfind; [discriminate|].
  intros _ r Hin%list_elem_of_In.
  apply String.eqb_neq. by apply (find_none _ _ Hfind).
Qed.

Lemma get_connection_found (session : Store) (connection_id : string)
    (conn_record : ConnRecord.t) :
  get_connection session connection_id = Ok conn_record →
  conn_record ∈ conn_records session
  ∧ ConnRecord.connection_id conn_record = connection_id
  ∧ ConnRecord.is_ready conn_record = true.
Proof.
  unfold get_connection, ConnRecord_retrieve_by_id.
  destruct (retrieve_by_id _ _ _) as [c|e] eqn:Hc.
  - destruct (ConnRecord.is_ready c) eqn:Hready; [|discriminate].
    intros [= <-]. apply retrieve_by_id_found in Hc as [? ?]. by repeat split.
  - by destruct (isinstance e _).
Qed.

Lemma get_connection_invalid (session : Store) (connection_id : string) (e : exn) :
  get_connection session connection_id = Raise e →
  exn_cls e = InvalidConnection.
Proof.
  unfold get_connection, ConnRecord_retrieve_by_id.
  destruct (retrieve_by_id _ _ _) as [c|e'] eqn:Hc.
  - destruct (ConnRecord.is_ready c); [discriminate|]. by intros [= <-].
  - rewrite (retrieve_by_id_raises _ _ _ _ Hc). by intros [= <-].
Qed.

(** X1.  When [get_pres_ex_record] returns a record, it is a record of the
    store that carries the id asked for and is in state request-received. *)
Theorem get_pres_ex_record_returns (session : Store) (pres_ex_id : string)
    (r : PresExRecord.t) :
  PresRequestApprove.get_pres_ex_record session pres_ex_id = Ok r →
  r ∈ pres_ex_records session
  ∧ PresExRecord.presentation_exchange_id r = pres_ex_id
  ∧ PresExRecord.state r = PresExRecord.STATE_REQUEST_RECEIVED.
Proof.
  unfold PresRequestApprove.get_pres_ex_record, PresExRecord_retrieve_by_id.
  destruct (retrieve_by_id _ _ _) as [found|e] eqn:Hfound.
  - destruct (String.eqb _ _) eqn:Hstate; [|discriminate]. simpl.
    intros [= <-]. apply retrieve_by_id_found in Hfound as [? ?].
    apply String.eqb_eq in Hstate. by repeat split.
  - by destruct (isinstance e _).
Qed.

Lemma get_pres_ex_record_returns_witness :
  pres_request ∈ pres_ex_records sample_store
  ∧ PresExRecord.presentation_exchange_id pres_request = "pres-1"
  ∧ PresExRecord.state pres_request = PresExRecord.STATE_REQUEST_RECEIVED.
Proof.
  apply (get_pres_ex_record_returns sample_store "pres-1" pres_request).
  reflexivity.
Defined.

Lemma get_pres_ex_record_over_store (session : Store) (pres_ex_id : string) :
  PresRequestApprove.get_pres_ex_record session pres_ex_id
  = get_pres_ex_record_over PresExRecord_retrieve_by_id session pres_ex_id.
Proof. reflexivity. Qed.

(** X2.  Whatever way the lookup of the record fails, a
    [StorageNotFoundError] never leaves [get_pres_ex_record].  A failure is
    either the [InvalidPresentationExchange] that stands for a lookup that
    found nothing or for a record in another state, each with its own
    text, or it is the lookup's own exception, of another class than
    [StorageNotFoundError], passed on as it is. *)
Theorem get_pres_ex_record_failures
    (lookup : Store → string → result PresExRecord.t)
    (session : Store) (pres_ex_id : string) (e : exn) :
  get_pres_ex_record_over lookup session pres_ex_id = Raise e →
  isinstance e [StorageNotFoundError] = false
  ∧ ((∃ err, lookup session pres_ex_id = Raise err
             ∧ isinstance err [StorageNotFoundError] = true
             ∧ e = Exn InvalidPresentationExchange
                     "Presentation exchange ID not found")
     ∨ (∃ r, lookup session pres_ex_id = Ok r
             ∧ PresExRecord.state r ≠ PresExRecord.STATE_REQUEST_RECEIVED
             ∧ e = Exn InvalidPresentationExchange
                     "Presentation must be in request received state")
     ∨ (lookup session pres_ex_id = Raise e)).
Proof.
  unfold get_pres_ex_record_over.
  destruct (lookup session pres_ex_id) as [r|err].
  - destruct (String.eqb_spec (PresExRecord.state r)
                PresExRecord.STATE_REQUEST_RECEIVED) as [Hstate|Hstate];
      [discriminate|].
    simpl. intros [= <-]. split; [reflexivity|].
    right. left. by exists r.
  - destruct (isinstance err [StorageNotFoundError]) eqn:Hclass.
    + intros [= <-]. split; [reflexivity|]. left. by exists err.
    + intros [= <-]. split; [exact Hclass|]. by right; right.
Qed.

Lemma get_pres_ex_record_failures_witness :
  (isinstance (Exn StorageError "storage unavailable") [StorageNotFoundError]
   = false
   ∧ ((∃ err, unreachable_lookup sample_store "pres-1" = Raise err
              ∧ isinstance err [StorageNotFoundError] = true
              ∧ Exn StorageError "storage unavailable"
                = Exn InvalidPresentationExchange
                    "Presentation exchange ID not found")
      ∨ (∃ r, unreachable_lookup sample_store "pres-1" = Ok r
              ∧ PresExRecord.state r ≠ PresExRecord.STATE_REQUEST_RECEIVED
              ∧ Exn StorageError "storage unavailable"
                = Exn InvalidPresentationExchange
                    "Presentation must be in request received state")
      ∨ unreachable_lookup sample_store "pres-1"
        = Raise (Exn StorageError "storage unavailable")))
  ∧ isinstance
      (Exn InvalidPresentationExchange "Presentation exchange ID not found")
      [StorageNotFoundError]
    = false.
Proof.
  split.
  - apply (get_pres_ex_record_failures unreachable_lookup sample_store "pres-1").
    reflexivity.
  - apply (get_pres_ex_record_failures PresExRecord_retrieve_by_id sample_store
             "pres-404").
    reflexivity.
Defined.

(** ** Message registry *)

(** X3.  Looking a registered class up in [MESSAGE_TYPES] under its
    qualified message type gives the dotted path of that very class: no
    entry of the comprehension is overwritten by a later one. *)
Theorem MESSAGE_TYPES_lookup (cls : msg_class.t) :
  cls ∈ registered_classes →
  MESSAGE_TYPES !! msg_class.Meta_message_type cls
  = Some (msg_class.__module__ cls +:+ "." +:+ msg_class.__name__ cls).
Proof.
  intros Hin. destruct cls; try (vm_compute; reflexivity);
    exfalso; apply list_elem_of_In in Hin; simpl in Hin;
    intuition discriminate.
Qed.

Lemma MESSAGE_TYPES_lookup_witness :
  MESSAGE_TYPES !! msg_class.Meta_message_type msg_class.PresRequestApprove
  = Some "acapy_plugin_toolbox.holder.v0_1.PresRequestApprove".
Proof.
  apply (MESSAGE_TYPES_lookup msg_class.PresRequestApprove).
  apply list_elem_of_In. simpl. tauto.
Defined.

(** X4.  The message type names of the fifteen message classes are pairwise
    distinct, and so are their qualified forms. *)
Theorem message_type_injective (c d : msg_class.t) :
  (msg_class.message_type c = msg_class.message_type d → c = d)
  ∧ (msg_class.Meta_message_type c = msg_class.Meta_message_type d → c = d).
Proof.
  split; destruct c, d; solve [reflexivity | vm_compute; discriminate].
Qed.

Lemma message_type_injective_witness :
  msg_class.PresSent = msg_class.PresSent.
Proof.
  apply (proj1 (message_type_injective msg_class.PresSent msg_class.PresSent)).
  reflexivity.
Defined.

(** ** Event bridge *)

Lemma issue_credential_event_handler_run (event : Event CredExRecord.t)
    (w : World) :
  let record := event_payload event in
  let notified m :=
    (Ok tt, {| store := store w;
               outbox := (outbox w
                          ++ map (send (new_message m))
                               (admin_sessions (store w)))%list |}) in
  issue_credential_event_handler event w
  = if String.eqb (CredExRecord.state record) CredExRecord.STATE_OFFER_RECEIVED
    then notified (CredOfferRecv record)
    else if String.eqb (CredExRecord.state record)
              CredExRecord.STATE_CREDENTIAL_RECEIVED
    then notified (CredReceived record)
    else (Ok tt, w).
Proof.
  intros record notified. unfold issue_credential_event_handler.
  unfold CredExRecord.deserialize, CredExRecord.serialize. fold record.
  destruct (String.eqb_spec (CredExRecord.state record)
              CredExRecord.STATE_OFFER_RECEIVED) as [Ho|Ho].
  - rewrite Ho. simpl. unfold bind, attribute, ret. simpl.
    apply send_to_admins_spec.
  - destruct (String.eqb_spec (CredExRecord.state record)
                CredExRecord.STATE_CREDENTIAL_RECEIVED) as [Hc|Hc].
    + rewrite Hc. simpl. unfold bind, attribute, ret. simpl.
      apply send_to_admins_spec.
    + rewrite bool_decide_eq_false_2; [reflexivity|].
      rewrite !elem_of_cons, elem_of_nil. tauto.
Qed.

(** X5.  The credential event handler does not write to the store and
    sends no reply.  Every message it hands to the responder goes to an
    admin session, has no thread decorator and wraps the record of the
    event, as a credential-offer-received notification when the record is
    in state offer-received and as a credential-received notification when
    it is in state credential-received. *)
Theorem issue_credential_event_handler_effects (event : Event CredExRecord.t)
    (w : World) :
  store (snd (issue_credential_event_handler event w)) = store w
  ∧ ∀ effect, effect ∈ emitted (issue_credential_event_handler event) w →
      ∃ m session,
        effect = send m session
        ∧ session ∈ admin_sessions (store w)
        ∧ thread m = None
        ∧ ((CredExRecord.state (event_payload event)
            = CredExRecord.STATE_OFFER_RECEIVED
            ∧ payload m = Admin (CredOfferRecv (event_payload event)))
           ∨ (CredExRecord.state (event_payload event)
              = CredExRecord.STATE_CREDENTIAL_RECEIVED
              ∧ payload m = Admin (CredReceived (event_payload event)))).
Proof.
  unfold emitted. rewrite issue_credential_event_handler_run.
  destruct (String.eqb_spec (CredExRecord.state (event_payload event))
              CredExRecord.STATE_OFFER_RECEIVED) as [Ho|Ho];
    [|destruct (String.eqb_spec (CredExRecord.state (event_payload event))
                  CredExRecord.STATE_CREDENTIAL_RECEIVED) as [Hc|Hc]];
    simpl.
  - split; [reflexivity|]. intros effect. rewrite drop_app_length.
    intros (session & -> & Hin)%list_elem_of_fmap.
    eexists _, session. split; [reflexivity|]. split; [exact Hin|].
    split; [reflexivity|]. by left.
  - split; [reflexivity|]. intros effect. rewrite drop_app_length.
    intros (session & -> & Hin)%list_elem_of_fmap.
    eexists _, session. split; [reflexivity|]. split; [exact Hin|].
    split; [reflexivity|]. by right.
  - split; [reflexivity|]. rewrite drop_all. by intros effect ?%elem_of_nil.
Qed.

Lemma issue_credential_event_handler_effects_witness :
  ∃ m session,
    send (new_message (CredOfferRecv cred_offer)) "admin-2" = send m session
    ∧ session ∈ admin_sessions sample_store
    ∧ thread m = None
    ∧ ((CredExRecord.state cred_offer = CredExRecord.STATE_OFFER_RECEIVED
        ∧ payload m = Admin (CredOfferRecv cred_offer))
       ∨ (CredExRecord.state cred_offer = CredExRecord.STATE_CREDENTIAL_RECEIVED
          ∧ payload m = Admin (CredReceived cred_offer))).
Proof.
  apply (proj2 (issue_credential_event_handler_effects
                  {| topic := "issue_credential"; event_payload := cred_offer |}
                  sample_world)).
  vm_compute. apply list_elem_of_further, list_elem_of_here.
Defined.

(** X6.  The presentation event handler does not write to the store and
    sends no reply.  It hands a message to the responder only for a record
    in state request-received and only once the holder's lookup has
    returned; every such message goes to an admin session and wraps the
    record of the event together with the credentials the lookup
    returned. *)
Theorem present_proof_event_handler_effects `{IndyHolder}
    (event : Event PresExRecord.t) (w : World) :
  store (snd (present_proof_event_handler event w)) = store w
  ∧ ∀ effect, effect ∈ emitted (present_proof_event_handler event) w →
      PresExRecord.state (event_payload event)
      = PresExRecord.STATE_REQUEST_RECEIVED
      ∧ ∃ self session,
          effect = send (new_message (PresRequestReceived self)) session
          ∧ session ∈ admin_sessions (store w)
          ∧ PresRequestReceived.record self = event_payload event
          ∧ get_credentials_for_presentation_request_by_referent (store w)
              (PresExRecord.presentation_request (event_payload event))
              [] 0 PresRequestReceived.DEFAULT_COUNT []
            = Ok (PresRequestReceived.matching_credentials self).
Proof.
  unfold emitted. rewrite present_proof_event_handler_run.
  unfold PresExRecord.deserialize, PresRequestReceived.DEFAULT_COUNT.
  destruct (String.eqb_spec (PresExRecord.state (event_payload event))
              PresExRecord.STATE_REQUEST_RECEIVED) as [Hstate|Hstate].
  - destruct (get_credentials_for_presentation_request_by_referent _ _ _ _ _ _)
      as [credentials|err]; simpl.
    + split; [reflexivity|].
      intros effect. rewrite drop_app_length.
      intros (session & -> & Hin)%list_elem_of_fmap.
      split; [exact Hstate|]. by eexists _, _.
    + split; [reflexivity|].
      rewrite drop_all. by intros effect ?%elem_of_nil.
  - simpl. split; [reflexivity|].
    rewrite drop_all. by intros effect ?%elem_of_nil.
Qed.

Lemma present_proof_event_handler_effects_witness :
  PresExRecord.state pres_request = PresExRecord.STATE_REQUEST_RECEIVED
  ∧ ∃ self session,
      send
        (new_message
           (PresRequestReceived
              (PresRequestReceived.Build pres_request
                 ["credential-a"; "credential-b"] (Some (Page.Build 10 10)))))
        "admin-1"
      = send (new_message (PresRequestReceived self)) session
      ∧ session ∈ admin_sessions sample_store
      ∧ PresRequestReceived.record self = pres_request
      ∧ Ok ["credential-a"; "credential-b"]
        = Ok (PresRequestReceived.matching_credentials self).
Proof.
  apply (proj2 (@present_proof_event_handler_effects sample_holder
                  {| topic := "present_proof"; event_payload := pres_request |}
                  sample_world)).
  vm_compute. apply list_elem_of_here.
Defined.

(** ** Query handlers *)

Lemma apply_sublist {A} (cursor : Paginate.t) (records slice : list A)
    (page : Page.t) :
  Paginate.apply cursor records = Ok (slice, page) →
  sublist slice records.
Proof.
  unfold Paginate.apply. destruct (_ <=? _); [discriminate|].
  intros [= <- _]. etrans; [apply sublist_take|apply sublist_drop].
Qed.

(** X7.  A credentials-get-list command without a states filter, or with an
    empty one, filters nothing: the whole result of the query goes to
    pagination, in its order. *)
Theorem credentials_get_list_unfiltered (context : RequestContext CredGetList.t)
    (w : World) :
  connection_is_admin context = true →
  CredGetList.states (message context) = None
  ∨ CredGetList.states (message context) = Some [] →
  CredGetList.handle context w
  = match
      Paginate.apply (CredGetList.paginate (message context))
        (CredExRecord_query (store w))
    with
    | Ok (slice, page) =>
        (Ok tt,
         {| store := store w;
            outbox :=
              (outbox w
               ++ [send_reply (new_message (CredList slice (Some page)))])%list |})
    | Raise e => (Raise e, w)
    end.
Proof.
  intros Hadmin Hstates.
  rewrite (CredGetList_handle_run context w Hadmin).
  by destruct Hstates as [-> | ->].
Qed.

Lemma credentials_get_list_unfiltered_witness :
  CredGetList.handle
    (admin_context (CredGetList.Build admin_request (Paginate.Build 10 0) (Some [])))
    sample_world
  = (Ok tt,
     {| store := sample_store;
        outbox :=
          [send_reply
             (new_message
                (CredList [cred_offer; cred_stored; cred_proposed]
                   (Some (Page.Build 3 0))))] |}).
Proof.
  exact (credentials_get_list_unfiltered
           (admin_context
              (CredGetList.Build admin_request (Paginate.Build 10 0) (Some [])))
           sample_world eq_refl (or_intror eq_refl)).
Defined.

(** X8.  Whatever the command and the connection it came over, the
    credentials-get-list handler leaves the store as it was and dispatches
    nothing to a connection: it hands the responder either nothing or one
    credentials-list reply, without thread decorator, whose results are
    records of the store in the order of the store. *)
Theorem credentials_get_list_read_only (context : RequestContext CredGetList.t)
    (w : World) :
  store (snd (CredGetList.handle context w)) = store w
  ∧ (emitted (CredGetList.handle context) w = []
     ∨ ∃ slice page,
         emitted (CredGetList.handle context) w
         = [send_reply (new_message (CredList slice (Some page)))]
         ∧ sublist slice (cred_ex_records (store w))).
Proof.
  unfold emitted.
  destruct (connection_is_admin context) eqn:Hadmin.
  - rewrite (CredGetList_handle_run context w Hadmin).
    match goal with
    | |- context [Paginate.apply ?c ?l] =>
        destruct (Paginate.apply c l) as [[slice page]|e] eqn:Happly
    end; simpl.
    + split; [reflexivity|]. right. exists slice, page.
      rewrite drop_app_length. split; [reflexivity|].
      apply apply_sublist in Happly. etrans; [exact Happly|].
      destruct (truthy _); [apply sublist_filter|reflexivity].
    + split; [reflexivity|]. left. apply drop_all.
  - unfold CredGetList.handle, log_handling, admin_only. rewrite Hadmin. simpl.
    split; [reflexivity|]. left. apply drop_all.
Qed.

Lemma PresExRecord_query_spec (session : Store)
    (post_filter_positive : list post_filter_item) :
  sublist (PresExRecord_query session post_filter_positive)
    (pres_ex_records session)
  ∧ ∀ r, r ∈ PresExRecord_query session post_filter_positive
         ↔ r ∈ pres_ex_records session
           ∧ ∀ item, item ∈ post_filter_positive → match_post_filter r item = true.
Proof.
  unfold PresExRecord_query. split.
  - induction (pres_ex_records session) as [|r rest IH]; simpl; [constructor|].
    destruct (forallb _ _); by constructor.
  - intros r. rewrite !list_elem_of_In, filter_In, forallb_forall.
    split; intros [Hin Hall]; (split; [exact Hin|]); intros item Hitem;
      apply Hall; by apply list_elem_of_In.
Qed.

(** X9.  A presentations-get-list command paginates exactly the stored
    records whose role is prover, whose connection is the one asked for
    when the command names one, and whose verified flag is the one asked
    for when the command names one (a record without the flag never
    matches); the order of the store is kept. *)
Theorem presentations_get_list_post_filter (context : RequestContext PresGetList.t)
    (w : World) :
  connection_is_admin context = true →
  ∃ selected,
    sublist selected (pres_ex_records (store w))
    ∧ (∀ r, r ∈ selected
            ↔ r ∈ pres_ex_records (store w)
              ∧ PresExRecord.role r = PresExRecord.ROLE_PROVER
              ∧ (∀ v, PresGetList.connection_id (message context) = Some v →
                      PresExRecord.connection_id r = v)
              ∧ (∀ v, PresGetList.verified (message context) = Some v →
                      PresExRecord.verified r = Some v))
    ∧ PresGetList.handle context w
      = match Paginate.apply (PresGetList.paginate (message context)) selected with
        | Ok (slice, page) =>
            (Ok tt,
             {| store := store w;
                outbox :=
                  (outbox w
                   ++ [send_reply (new_message (PresList slice (Some page)))])%list |})
        | Raise e => (Raise e, w)
        end.
Proof.
  intros Hadmin. eexists. split; [|split].
  3: exact (PresGetList_handle_run context w Hadmin).
  - apply PresExRecord_query_spec.
  - intros r. rewrite (proj2 (PresExRecord_query_spec _ _)).
    apply and_iff_compat_l.
    destruct (PresGetList.connection_id (message context)) as [cid|];
      destruct (PresGetList.verified (message context)) as [ver|]; simpl;
      split.
    all: try (intros Hall; repeat split;
              [ apply String.eqb_eq, (Hall (filter_role _)); set_solver
              | intros v [= <-] || discriminate
              | intros v [= <-] || discriminate ]).
    all: try (apply String.eqb_eq, (Hall (filter_connection_id _)); set_solver).
    all: try (specialize (Hall (filter_verified ver) ltac:(set_solver));
              simpl in Hall; destruct (PresExRecord.verified r); [|discriminate];
              apply String.eqb_eq in Hall; by subst).
    all: intros (Hrole & Hconn & Hver) item Hitem;
      repeat (apply elem_of_cons in Hitem as [->|Hitem]);
      try (by apply elem_of_nil in Hitem); simpl.
    all: try (by apply String.eqb_eq).
    all: try (apply String.eqb_eq; by apply Hconn).
    all: rewrite (Hver _ eq_refl); apply String.eqb_refl.
Qed.

Lemma presentations_get_list_post_filter_witness :
  ∃ selected,
    sublist selected [pres_request; pres_done]
    ∧ (∀ r, r ∈ selected
            ↔ r ∈ [pres_request; pres_done]
              ∧ PresExRecord.role r = PresExRecord.ROLE_PROVER
              ∧ (∀ v, Some "conn-1" = Some v → PresExRecord.connection_id r = v)
              ∧ (∀ v, @None string = Some v → PresExRecord.verified r = Some v))
    ∧ PresGetList.handle (admin_context (list_command (Some "conn-1") None))
        sample_world
      = match Paginate.apply Paginate.default selected with
        | Ok (slice, page) =>
            (Ok tt,
             {| store := sample_store;
                outbox :=
                  [send_reply (new_message (PresList slice (Some page)))] |})
        | Raise e => (Raise e, sample_world)
        end.
Proof.
  exact (presentations_get_list_post_filter
           (admin_context (list_command (Some "conn-1") None)) sample_world
           eq_refl).
Defined.

(** X10.  Whatever the command and the connection it came over, the
    presentations-get-list handler leaves the store as it was and
    dispatches nothing to a connection: it hands the responder either
    nothing or one presentations-list reply, without thread decorator,
    whose results are prover records of the store in the order of the
    store. *)
Theorem presentations_get_list_read_only (context : RequestContext PresGetList.t)
    (w : World) :
  store (snd (PresGetList.handle context w)) = store w
  ∧ (emitted (PresGetList.handle context) w = []
     ∨ ∃ slice page,
         emitted (PresGetList.handle context) w
         = [send_reply (new_message (PresList slice (Some page)))]
         ∧ sublist slice (pres_ex_records (store w))
         ∧ Forall (λ r, PresExRecord.role r = PresExRecord.ROLE_PROVER) slice).
Proof.
  unfold emitted.
  destruct (connection_is_admin context) eqn:Hadmin.
  - rewrite (PresGetList_handle_run context w Hadmin).
    match goal with
    | |- context [Paginate.apply ?c (PresExRecord_query ?s ?f)] =>
        destruct (Paginate.apply c (PresExRecord_query s f))
          as [[slice page]|e] eqn:Happly;
        pose proof (PresExRecord_query_spec s f) as [Hsub Hin]
    end; simpl.
    + split; [reflexivity|]. right. exists slice, page.
      rewrite drop_app_length. split; [reflexivity|].
      apply apply_sublist in Happly. split; [by etrans|].
      apply Forall_forall. intros r Hr.
      eapply sublist_subseteq in Happly. apply Happly in Hr.
      destruct (proj1 (Hin r) Hr) as [_ Hall].
      apply String.eqb_eq, (Hall (filter_role _)). apply list_elem_of_here.
    + split; [reflexivity|]. left. apply drop_all.
  - unfold PresGetList.handle, log_handling, admin_only. rewrite Hadmin. simpl.
    split; [reflexivity|]. left. apply drop_all.
Qed.

(** ** Credential commands *)

(** X11.  The problem report of a send-credential-proposal command tells
    the two failures apart: "Connection not found." when no connection of
    the store carries the id, "Connection invalid." when the connection
    exists and is not ready.  In both cases the handler returns normally
    after that single reply. *)
Theorem send_credential_proposal_reports `{CredentialManager}
    (context : RequestContext SendCredProposal.t) (w : World) :
  connection_is_admin context = true →
  let msg := message context in
  let answered text :=
    (Ok tt,
     {| store := store w;
        outbox :=
          (outbox w
           ++ [send_reply
                 (assign_thread_from (new_message (ProblemReport text "none"))
                    (SendCredProposal.base msg))])%list |}) in
  ((∀ c, c ∈ conn_records (store w) →
         ConnRecord.connection_id c ≠ SendCredProposal.connection_id msg) →
   SendCredProposal.handle context w = answered "Connection not found.")
  ∧ (∀ c, ConnRecord_retrieve_by_id (store w) (SendCredProposal.connection_id msg)
          = Ok c →
          ConnRecord.is_ready c = false →
          SendCredProposal.handle context w = answered "Connection invalid.").
Proof.
  intros Hadmin msg answered.
  unfold SendCredProposal.handle. pass_decorators Hadmin.
  unfold try_except, with_session. fold msg. split.
  - intros Hmissing.
    destruct (ConnRecord_retrieve_by_id (store w) (SendCredProposal.connection_id msg))
      as [c|e] eqn:Hc.
    + apply retrieve_by_id_found in Hc as [Hin Hid]. by destruct (Hmissing c Hin).
    + by rewrite (retrieve_by_id_raises _ _ _ _ Hc).
  - intros c -> ->. reflexivity.
Qed.

Lemma send_credential_proposal_reports_witness :
  @SendCredProposal.handle sample_credential_manager
    (admin_context (proposal_command "conn-404")) sample_world
  = (Ok tt,
     {| store := sample_store;
        outbox :=
          [send_reply
             (assign_thread_from
                (new_message (ProblemReport "Connection not found." "none"))
                admin_request)] |})
  ∧ @SendCredProposal.handle sample_credential_manager
      (admin_context (proposal_command "conn-2")) sample_world
    = (Ok tt,
       {| store := sample_store;
          outbox :=
            [send_reply
               (assign_thread_from
                  (new_message (ProblemReport "Connection invalid." "none"))
                  admin_request)] |}).
Proof.
  split.
  - apply (proj1 (@send_credential_proposal_reports sample_credential_manager
                    (admin_context (proposal_command "conn-404")) sample_world
                    eq_refl)).
    intros c Hc. repeat (apply elem_of_cons in Hc as [->|Hc]); try discriminate.
    by apply elem_of_nil in Hc.
  - exact (proj2 (@send_credential_proposal_reports sample_credential_manager
                    (admin_context (proposal_command "conn-2")) sample_world
                    eq_refl)
             conn_pending eq_refl eq_refl).
Defined.

(** X12.  A credential-offer-accept command for an id that the store does
    not hold is answered by one problem report for the storage error,
    thread-correlated to the command; the credential engine is not called,
    so the store stays as it was, and nothing is dispatched.  The handler
    ends with the storage error when the reporter raises it again, and
    otherwise with the [AttributeError] of reading [my_did] off the
    connection record that is still [None]. *)
Theorem credential_offer_accept_missing_record `{ExceptionReporting}
    `{CredentialManager} (context : RequestContext CredOfferAccept.t) (w : World)
    (e : exn) :
  connection_is_admin context = true →
  CredExRecord_retrieve_by_id (store w)
    (CredOfferAccept.credential_exchange_id (message context))
  = Raise e →
  CredOfferAccept.handle context w
  = (Raise (if raises_again then e else Exn AttributeError "my_did"),
     {| store := store w;
        outbox :=
          (outbox w
           ++ [problem_report_reply e (CredOfferAccept.base (message context))])%list |}).
Proof.
  intros Hadmin Hrecord.
  assert (Hclass :
    isinstance e [StorageError; CredentialManagerError; BaseModelError] = true).
  { pose proof (retrieve_by_id_raises _ _ _ _ Hrecord) as Hnf.
    unfold isinstance in *. simpl in *.
    destruct (exn_cls e); try discriminate; reflexivity. }
  unfold CredOfferAccept.handle. pass_decorators Hadmin.
  unfold bind at 1. unfold ExceptionReporter, seq_block, stmt, with_session.
  rewrite Hrecord, Hclass. simpl.
  unfold bind at 1, responder_send_reply, emit. simpl.
  destruct raises_again; reflexivity.
Qed.

Lemma credential_offer_accept_missing_record_witness :
  @CredOfferAccept.handle (sample_reporting false) sample_credential_manager
    (admin_context (accept_command "cred-404")) sample_world
  = (Raise (Exn AttributeError "my_did"),
     {| store := sample_store;
        outbox :=
          [@problem_report_reply (sample_reporting false)
             (Exn StorageNotFoundError "Record not found") admin_request] |}).
Proof.
  exact (@credential_offer_accept_missing_record (sample_reporting false)
           sample_credential_manager (admin_context (accept_command "cred-404"))
           sample_world (Exn StorageNotFoundError "Record not found")
           eq_refl eq_refl).
Defined.

(** X13.  When the record of a credential-offer-accept command exists and
    its connection cannot be retrieved, the [InvalidConnection] is not
    among the exceptions the handler reports: it leaves the handler as it
    is, no reply is sent, nothing is dispatched and the store stays as it
    was. *)
Theorem credential_offer_accept_invalid_connection `{ExceptionReporting}
    `{CredentialManager} (context : RequestContext CredOfferAccept.t) (w : World)
    (cred_ex_record : CredExRecord.t) (e : exn) :
  connection_is_admin context = true →
  CredExRecord_retrieve_by_id (store w)
    (CredOfferAccept.credential_exchange_id (message context))
  = Ok cred_ex_record →
  get_connection (store w) (CredExRecord.connection_id cred_ex_record) = Raise e →
  CredOfferAccept.handle context w = (Raise e, w)
  ∧ exn_cls e = InvalidConnection.
Proof.
  intros Hadmin Hrecord Hconn.
  pose proof (get_connection_invalid _ _ _ Hconn) as Hclass.
  split; [|exact Hclass].
  unfold CredOfferAccept.handle. pass_decorators Hadmin.
  unfold bind at 1. unfold ExceptionReporter, seq_block, stmt, with_session.
  rewrite Hrecord. simpl. unfold bind at 1, local, ret. simpl.
  rewrite Hconn. simpl. unfold isinstance. rewrite Hclass. reflexivity.
Qed.

Lemma credential_offer_accept_invalid_connection_witness :
  @CredOfferAccept.handle (sample_reporting true) sample_credential_manager
    (admin_context (accept_command "cred-4")) unready_world
  = (Raise (Exn InvalidConnection "Connection is not ready."), unready_world)
  ∧ exn_cls (Exn InvalidConnection "Connection is not ready.") = InvalidConnection.
Proof.
  exact (@credential_offer_accept_invalid_connection (sample_reporting true)
           sample_credential_manager (admin_context (accept_command "cred-4"))
           unready_world cred_unready _ eq_refl eq_refl eq_refl).
Defined.

(** ** Presentation commands *)

(** X14.  An approved presentation request, for a record in state
    request-received on a ready connection and an engine that builds the
    presentation: the presentation is dispatched on the connection of the
    record, the reply is a presentation-sent message made from the record
    the engine returned and thread-correlated to the command, and the
    store is the one the engine left. *)
Theorem presentation_request_approve_dispatch `{ExceptionReporting}
    `{PresentationManager} (context : RequestContext PresRequestApprove.t)
    (w : World) (pres_ex_record updated : PresExRecord.t)
    (conn_record : ConnRecord.t) (presentation : OutboundMessage)
    (session : Store) :
  connection_is_admin context = true →
  PresRequestApprove.get_pres_ex_record (store w)
    (PresRequestApprove.presentation_exchange_id (message context))
  = Ok pres_ex_record →
  get_connection (store w) (PresExRecord.connection_id pres_ex_record)
  = Ok conn_record →
  create_presentation (store w) pres_ex_record
    (RequestedCreds
       (PresRequestApprove.self_attested_attributes (message context))
       (PresRequestApprove.requested_attributes (message context))
       (PresRequestApprove.requested_predicates (message context)))
    (PresRequestApprove.comment (message context))
  = (Ok (updated, presentation), session) →
  PresRequestApprove.handle context w
  = (Ok tt,
     {| store := session;
        outbox :=
          (outbox w
           ++ [send presentation (PresExRecord.connection_id pres_ex_record);
               send_reply
                 (assign_thread_from (new_message (PresSent updated))
                    (PresRequestApprove.base (message context)))])%list |}).
Proof.
  intros Hadmin Hrecord Hconn Hengine.
  pose proof (get_connection_found _ _ _ Hconn) as (_ & Hid & _).
  unfold PresRequestApprove.handle. pass_decorators Hadmin.
  unfold bind at 1. unfold ExceptionReporter at 1. unfold stmt, with_session.
  rewrite Hrecord. simpl.
  unfold bind at 1. unfold ExceptionReporter at 1. unfold stmt. simpl.
  unfold bind at 1, local, ret, with_session. simpl. rewrite Hconn. simpl.
  unfold bind at 1. unfold ExceptionReporter at 1. unfold stmt. simpl.
  unfold bind at 1, call_engine. simpl. rewrite Hengine. simpl.
  unfold bind, responder_send, responder_send_reply, emit. simpl.
  by rewrite Hid, <- app_assoc.
Qed.

Lemma presentation_request_approve_dispatch_witness :
  @PresRequestApprove.handle (sample_reporting true) sample_presentation_manager
    (admin_context (approve_command "pres-1")) sample_world
  = (Ok tt,
     {| store := sample_store;
        outbox :=
          [send (new_protocol_message (Presentation "proof")) "conn-1";
           send_reply
             (assign_thread_from
                (new_message
                   (PresSent
                      (PresExRecord.Build "pres-1" "conn-1" "prover"
                         "presentation_sent" None "{proof-request}")))
                admin_request)] |}).
Proof.
  exact (@presentation_request_approve_dispatch (sample_reporting true)
           sample_presentation_manager (admin_context (approve_command "pres-1"))
           sample_world pres_request _ conn_ready _ sample_store
           eq_refl eq_refl eq_refl eq_refl).
Defined.

Arguments isinstance : simpl never.

(** X15.  When the presentation engine fails on an approved request (record
    in state request-received, ready connection), nothing is dispatched to
    the remote party.  A failure of one of the five reported classes is
    answered by one problem report, thread-correlated to the command; any
    other failure leaves the handler as it is, without a reply.  The store
    is the one the engine left. *)
Theorem presentation_request_approve_engine_failure `{ExceptionReporting}
    `{PresentationManager} (context : RequestContext PresRequestApprove.t)
    (w : World) (pres_ex_record : PresExRecord.t) (conn_record : ConnRecord.t)
    (e : exn) (session : Store) :
  connection_is_admin context = true →
  PresRequestApprove.get_pres_ex_record (store w)
    (PresRequestApprove.presentation_exchange_id (message context))
  = Ok pres_ex_record →
  get_connection (store w) (PresExRecord.connection_id pres_ex_record)
  = Ok conn_record →
  create_presentation (store w) pres_ex_record
    (RequestedCreds
       (PresRequestApprove.self_attested_attributes (message context))
       (PresRequestApprove.requested_attributes (message context))
       (PresRequestApprove.requested_predicates (message context)))
    (PresRequestApprove.comment (message context))
  = (Raise e, session) →
  PresRequestApprove.handle context w
  = if isinstance e
         [BaseModelError; IndyHolderError; LedgerError; StorageError;
          WalletNotFoundError]
    then
      (Raise (if raises_again then e else Exn UnboundLocalError "message"),
       {| store := session;
          outbox :=
            (outbox w
             ++ [problem_report_reply e
                   (PresRequestApprove.base (message context))])%list |})
    else (Raise e, {| store := session; outbox := outbox w |}).
Proof.
  intros Hadmin Hrecord Hconn Hengine.
  unfold PresRequestApprove.handle. pass_decorators Hadmin.
  unfold bind at 1. unfold ExceptionReporter at 1. unfold stmt, with_session.
  rewrite Hrecord. simpl.
  unfold bind at 1. unfold ExceptionReporter at 1. unfold stmt. simpl.
  unfold bind at 1, local, ret, with_session. simpl. rewrite Hconn. simpl.
  unfold bind at 1. unfold ExceptionReporter at 1. unfold stmt. simpl.
  unfold bind at 1, call_engine. simpl. rewrite Hengine. simpl.
  destruct (isinstance e _); [|reflexivity].
  unfold bind at 1, responder_send_reply, emit. simpl.
  destruct raises_again; reflexivity.
Qed.

Lemma presentation_request_approve_engine_failure_witness :
  @PresRequestApprove.handle (sample_reporting true)
    (failing_presentation_manager IndyHolderError)
    (admin_context (approve_command "pres-1")) sample_world
  = (Raise (Exn IndyHolderError "engine failure"),
     {| store := sample_store;
        outbox :=
          [@problem_report_reply (sample_reporting true)
             (Exn IndyHolderError "engine failure") admin_request] |})
  ∧ @PresRequestApprove.handle (sample_reporting true)
      (failing_presentation_manager InvalidArgument)
      (admin_context (approve_command "pres-1")) sample_world
    = (Raise (Exn InvalidArgument "engine failure"), sample_world).
Proof.
  split.
  - exact (@presentation_request_approve_engine_failure (sample_reporting true)
             (failing_presentation_manager IndyHolderError)
             (admin_context (approve_command "pres-1")) sample_world
             pres_request conn_ready _ sample_store
             eq_refl eq_refl eq_refl eq_refl).
  - exact (@presentation_request_approve_engine_failure (sample_reporting true)
             (failing_presentation_manager InvalidArgument)
             (admin_context (approve_command "pres-1")) sample_world
             pres_request conn_ready _ sample_store
             eq_refl eq_refl eq_refl eq_refl).
Defined.

Lemma PresRequestApprove_invalid_connection_run `{ExceptionReporting}
    `{PresentationManager} (context : RequestContext PresRequestApprove.t)
    (w : World) (pres_ex_record : PresExRecord.t) (e : exn) :
  connection_is_admin context = true →
  PresRequestApprove.get_pres_ex_record (store w)
    (PresRequestApprove.presentation_exchange_id (message context))
  = Ok pres_ex_record →
  get_connection (store w) (PresExRecord.connection_id pres_ex_record) = Raise e →
  let base := PresRequestApprove.base (message context) in
  PresRequestApprove.handle context w
  = if raises_again then
      (Raise e,
       {| store := store w;
          outbox := (outbox w ++ [problem_report_reply e base])%list |})
    else
      match
        create_presentation (store w) pres_ex_record
          (RequestedCreds
             (PresRequestApprove.self_attested_attributes (message context))
             (PresRequestApprove.requested_attributes (message context))
             (PresRequestApprove.requested_predicates (message context)))
          (PresRequestApprove.comment (message context))
      with
      | (Ok _, session) =>
          (Raise (Exn UnboundLocalError "conn_record"),
           {| store := session;
              outbox := (outbox w ++ [problem_report_reply e base])%list |})
      | (Raise e', session) =>
          if isinstance e'
               [BaseModelError; IndyHolderError; LedgerError; StorageError;
                WalletNotFoundError]
          then
            (Raise (Exn UnboundLocalError "message"),
             {| store := session;
                outbox :=
                  (outbox w
                   ++ [problem_report_reply e base;
                       problem_report_reply e' base])%list |})
          else
            (Raise e',
             {| store := session;
                outbox := (outbox w ++ [problem_report_reply e base])%list |})
      end.
Proof.
  intros Hadmin Hrecord Hconn base.
  assert (Hclass : isinstance e [InvalidConnection] = true).
  { unfold isinstance. by rewrite (get_connection_invalid _ _ _ Hconn). }
  unfold PresRequestApprove.handle. pass_decorators Hadmin.
  unfold bind at 1. unfold ExceptionReporter at 1.
  unfold stmt, with_session. rewrite Hrecord. simpl.
  unfold bind at 1. unfold ExceptionReporter at 1. unfold stmt. simpl.
  unfold bind at 1, local, ret, with_session. simpl.
  rewrite Hconn, Hclass. simpl.
  unfold bind at 1, responder_send_reply, emit. simpl. fold base.
  destruct raises_again eqn:Hagain; simpl; [reflexivity|].
  unfold bind at 1. unfold ExceptionReporter at 1. unfold stmt. simpl.
  unfold bind at 1, call_engine. simpl.
  destruct (create_presentation _ _ _ _) as [[[updated m]|e'] session]; simpl;
    [reflexivity|].
  destruct (isinstance e' _); simpl; [|reflexivity].
  unfold bind, emit. simpl. rewrite Hagain. simpl.
  by rewrite <- app_assoc.
Qed.

(** X16.  When the record of a presentation-request-approve command is in
    state request-received and its connection cannot be retrieved, the
    handler ends with an exception and dispatches nothing to the remote
    party: all it hands to the responder are problem reports,
    thread-correlated to the command, the first of them for the
    [InvalidConnection].  When the reporter raises the exception again,
    that report is the only message, the handler ends with the
    [InvalidConnection] and the store stays as it was. *)
Theorem presentation_request_approve_invalid_connection `{ExceptionReporting}
    `{PresentationManager} (context : RequestContext PresRequestApprove.t)
    (w : World) (pres_ex_record : PresExRecord.t) (e : exn) :
  connection_is_admin context = true →
  PresRequestApprove.get_pres_ex_record (store w)
    (PresRequestApprove.presentation_exchange_id (message context))
  = Ok pres_ex_record →
  get_connection (store w) (PresExRecord.connection_id pres_ex_record) = Raise e →
  let base := PresRequestApprove.base (message context) in
  ∃ raised w',
    PresRequestApprove.handle context w = (Raise raised, w')
    ∧ (∀ effect, effect ∈ emitted (PresRequestApprove.handle context) w →
         ∃ err, effect = problem_report_reply err base)
    ∧ head (emitted (PresRequestApprove.handle context) w)
      = Some (problem_report_reply e base)
    ∧ (raises_again = true →
       raised = e
       ∧ w' = {| store := store w;
                 outbox := (outbox w ++ [problem_report_reply e base])%list |}).
Proof.
  intros Hadmin Hrecord Hconn base. unfold emitted.
  rewrite (PresRequestApprove_invalid_connection_run context w _ _
             Hadmin Hrecord Hconn).
  fold base. destruct raises_again eqn:Hagain.
  - eexists _, _. split; [reflexivity|]. simpl. rewrite drop_app_length.
    split; [|split; [reflexivity|by intros _]].
    intros effect ->%list_elem_of_singleton. by eexists.
  - destruct (create_presentation _ _ _ _) as [[[updated m]|e'] session].
    + eexists _, _. split; [reflexivity|]. simpl. rewrite drop_app_length.
      split; [|split; [reflexivity|discriminate]].
      intros effect ->%list_elem_of_singleton. by eexists.
    + destruct (isinstance e' _).
      * eexists _, _. split; [reflexivity|]. simpl. rewrite drop_app_length.
        split; [|split; [reflexivity|discriminate]].
        intros effect Hin. apply elem_of_cons in Hin as [->|Hin]; [by eexists|].
        apply list_elem_of_singleton in Hin as ->. by eexists.
      * eexists _, _. split; [reflexivity|]. simpl. rewrite drop_app_length.
        split; [|split; [reflexivity|discriminate]].
        intros effect ->%list_elem_of_singleton. by eexists.
Qed.

Lemma presentation_request_approve_invalid_connection_witness :
  ∃ raised w',
    @PresRequestApprove.handle (sample_reporting true) sample_presentation_manager
      (admin_context (approve_command "pres-3")) unready_world
    = (Raise raised, w')
    ∧ (∀ effect,
         effect
         ∈ emitted
             (@PresRequestApprove.handle (sample_reporting true)
                sample_presentation_manager
                (admin_context (approve_command "pres-3")))
             unready_world →
         ∃ err,
           effect = @problem_report_reply (sample_reporting true) err admin_request)
    ∧ head
        (emitted
           (@PresRequestApprove.handle (sample_reporting true)
              sample_presentation_manager
              (admin_context (approve_command "pres-3")))
           unready_world)
      = Some
          (@problem_report_reply (sample_reporting true)
             (Exn InvalidConnection "Connection is not ready.") admin_request)
    ∧ (true = true →
       raised = Exn InvalidConnection "Connection is not ready."
       ∧ w' = {| store := unready_store;
                 outbox :=
                   [@problem_report_reply (sample_reporting true)
                      (Exn InvalidConnection "Connection is not ready.")
                      admin_request] |}).
Proof.
  exact (@presentation_request_approve_invalid_connection (sample_reporting true)
           sample_presentation_manager (admin_context (approve_command "pres-3"))
           unready_world pres_unready _ eq_refl eq_refl eq_refl).
Defined.

(** X17.  A send-presentation-proposal command on a valid connection calls
    the presentation engine with an auto-present flag that is true exactly
    when the command's flag is true or the debug setting is true; a flag
    that is absent or false leaves the decision to the setting.  When the
    engine returns a record, the proposal is dispatched on the connection
    and the reply is a presentation-exchange message, thread-correlated to
    the command; an error of the engine leaves the handler as it is, with
    no reply and nothing dispatched. *)
Theorem send_presentation_proposal_outcomes `{ExceptionReporting}
    `{PresentationManager} (context : RequestContext SendPresProposal.t)
    (w : World) (conn_record : ConnRecord.t) :
  connection_is_admin context = true →
  let msg := message context in
  let proposal :=
    PresentationProposal (SendPresProposal.comment msg)
      (SendPresProposal.presentation_proposal msg) in
  let setting := settings context !! "debug.auto_respond_presentation_request" in
  get_connection (store w) (SendPresProposal.connection_id msg) = Ok conn_record →
  ∃ auto_present,
    (auto_present = Some true
     ↔ SendPresProposal.auto_present msg = Some true ∨ setting = Some true)
    ∧ (SendPresProposal.auto_present msg ≠ Some true → auto_present = setting)
    ∧ SendPresProposal.handle context w
      = match
          create_exchange_for_proposal (store w)
            (SendPresProposal.connection_id msg) proposal auto_present
        with
        | (Ok created, session) =>
            (Ok tt,
             {| store := session;
                outbox :=
                  (outbox w
                   ++ [send (new_protocol_message proposal)
                         (SendPresProposal.connection_id msg);
                       send_reply
                         (assign_thread_from (new_message (PresExchange created))
                            (SendPresProposal.base msg))])%list |})
        | (Raise e, session) =>
            (Raise e, {| store := session; outbox := outbox w |})
        end.
Proof.
  intros Hadmin msg proposal setting Hconn.
  exists (py_or (SendPresProposal.auto_present msg) setting).
  split; [|split].
  - unfold py_or. destruct (SendPresProposal.auto_present msg) as [[]|];
      split; auto; intros [?|?]; done.
  - unfold py_or. by destruct (SendPresProposal.auto_present msg) as [[]|].
  - unfold SendPresProposal.handle. pass_decorators Hadmin.
    unfold bind at 1. unfold ExceptionReporter at 1. unfold stmt, with_session.
    fold msg. rewrite Hconn. simpl.
    unfold bind at 1, call_engine. fold proposal. fold setting.
    destruct (create_exchange_for_proposal _ _ _ _) as [[created|e] session];
      simpl; [|reflexivity].
    unfold bind, responder_send, responder_send_reply, emit. simpl.
    by rewrite <- app_assoc.
Qed.

Lemma send_presentation_proposal_outcomes_witness :
  ∃ auto_present,
    (auto_present = Some true ↔ Some false = Some true ∨ Some true = Some true)
    ∧ (Some false ≠ Some true → auto_present = Some true)
    ∧ @SendPresProposal.handle (sample_reporting true) sample_presentation_manager
        (debug_context (presentation_command "conn-1" (Some false))) sample_world
      = (Ok tt,
         {| store := sample_store;
            outbox :=
              [send (new_protocol_message (PresentationProposal None "{preview}"))
                 "conn-1";
               send_reply
                 (assign_thread_from
                    (new_message
                       (PresExchange
                          (PresExRecord.Build "pres-new" "conn-1" "prover"
                             "proposal_sent" None "")))
                    admin_request)] |}).
Proof.
  exact (@send_presentation_proposal_outcomes (sample_reporting true)
           sample_presentation_manager
           (debug_context (presentation_command "conn-1" (Some false)))
           sample_world conn_ready eq_refl eq_refl).
Defined.

(** X18.  A send-presentation-proposal command on a connection that cannot
    be retrieved is answered first of all by a problem report for the
    [InvalidConnection], thread-correlated to the command.  When the
    reporter raises the exception again, the handler ends there: the
    engine is not called and nothing is dispatched.  When it swallows the
    exception, the handler goes on as for a valid connection: it calls the
    engine and dispatches the proposal on that connection. *)
Theorem send_presentation_proposal_invalid_connection `{ExceptionReporting}
    `{PresentationManager} (context : RequestContext SendPresProposal.t)
    (w : World) (e : exn) :
  connection_is_admin context = true →
  let msg := message context in
  let proposal :=
    PresentationProposal (SendPresProposal.comment msg)
      (SendPresProposal.presentation_proposal msg) in
  let report := problem_report_reply e (SendPresProposal.base msg) in
  get_connection (store w) (SendPresProposal.connection_id msg) = Raise e →
  SendPresProposal.handle context w
  = if raises_again then
      (Raise e, {| store := store w; outbox := (outbox w ++ [report])%list |})
    else
      match
        create_exchange_for_proposal (store w)
          (SendPresProposal.connection_id msg) proposal
          (py_or (SendPresProposal.auto_present msg)
             (settings context !! "debug.auto_respond_presentation_request"))
      with
      | (Ok created, session) =>
          (Ok tt,
           {| store := session;
              outbox :=
                (outbox w
                 ++ [report;
                     send (new_protocol_message proposal)
                       (SendPresProposal.connection_id msg);
                     send_reply
                       (assign_thread_from (new_message (PresExchange created))
                          (SendPresProposal.base msg))])%list |})
      | (Raise e', session) =>
          (Raise e',
           {| store := session; outbox := (outbox w ++ [report])%list |})
      end.
Proof.
  intros Hadmin msg proposal report Hconn.
  assert (Hclass : isinstance e [InvalidConnection] = true).
  { unfold isinstance. by rewrite (get_connection_invalid _ _ _ Hconn). }
  unfold SendPresProposal.handle. pass_decorators Hadmin.
  unfold bind at 1. unfold ExceptionReporter at 1. unfold stmt, with_session.
  fold msg. rewrite Hconn, Hclass. simpl.
  unfold bind at 1, responder_send_reply, emit. simpl. fold report.
  destruct raises_again; simpl; [reflexivity|].
  unfold bind at 1, call_engine. fold proposal. simpl.
  destruct (create_exchange_for_proposal _ _ _ _) as [[created|e'] session];
    simpl; [|reflexivity].
  unfold bind, responder_send, responder_send_reply, emit. simpl.
  by rewrite <- !app_assoc.
Qed.

Lemma send_presentation_proposal_invalid_connection_witness :
  @SendPresProposal.handle (sample_reporting true) sample_presentation_manager
    (admin_context (presentation_command "conn-2" None)) sample_world
  = (Raise (Exn InvalidConnection "Connection is not ready."),
     {| store := sample_store;
        outbox :=
          [@problem_report_reply (sample_reporting true)
             (Exn InvalidConnection "Connection is not ready.") admin_request] |}).
Proof.
  exact (@send_presentation_proposal_invalid_connection (sample_reporting true)
           sample_presentation_manager
           (admin_context (presentation_command "conn-2" None)) sample_world
           _ eq_refl eq_refl).
Defined.

(** ** More on the notification *)

(** X20.  [retrieve_matching_credentials] keeps the record of the
    notification and overwrites what it held as credentials and page, so
    running it again on its own result, against the same profile, changes
    nothing; and when the holder's lookup raises, it raises the same
    exception. *)
Theorem retrieve_matching_credentials_again `{IndyHolder}
    (self : PresRequestReceived.t) (profile : Store) :
  match PresRequestReceived.retrieve_matching_credentials self profile with
  | Ok enriched =>
      PresRequestReceived.record enriched = PresRequestReceived.record self
      ∧ PresRequestReceived.retrieve_matching_credentials enriched profile
        = Ok enriched
      ∧ PresRequestReceived.retrieve_matching_credentials
          (PresRequestReceived.__init__ (PresRequestReceived.record self)) profile
        = Ok enriched
  | Raise e =>
      get_credentials_for_presentation_request_by_referent profile
        (PresExRecord.presentation_request (PresRequestReceived.record self))
        [] 0 10 []
      = Raise e
  end.
Proof.
  unfold PresRequestReceived.retrieve_matching_credentials,
    PresRequestReceived.__init__, PresRequestReceived.DEFAULT_COUNT.
  destruct (get_credentials_for_presentation_request_by_referent _ _ _ _ _ _)
    as [credentials|e] eqn:Hlookup; simpl; [|reflexivity].
  by rewrite Hlookup.
Qed.

(** ** Message registry, the other way round *)

Lemma foldl_insert_lookup {A} (k v : A → string) (l : list A)
    (m : gmap string string) (key value : string) :
  foldl (λ d c, <[k c := v c]> d) m l !! key = Some value →
  m !! key = Some value ∨ ∃ c, c ∈ l ∧ key = k c ∧ value = v c.
Proof.
  revert m. induction l as [|a l IH]; intros m; simpl; [by left|].
  intros [Hm|(c & Hin & Hkey & Hvalue)]%IH.
  - destruct (decide (k a = key)) as [<-|Hne].
    + rewrite lookup_insert_eq in Hm. injection Hm as <-.
      right. exists a. split; [apply list_elem_of_here|done].
    + rewrite lookup_insert_ne in Hm by done. by left.
  - right. exists c. split; [by apply list_elem_of_further|done].
Qed.

(** X21.  Every entry of [MESSAGE_TYPES] comes from a registered class: its
    key is the message type of that class under the protocol namespace and
    version, and its value is the path of that class in this module. *)
Theorem MESSAGE_TYPES_only_registered (key value : string) :
  MESSAGE_TYPES !! key = Some value →
  ∃ cls,
    cls ∈ registered_classes
    ∧ key = protocol +:+ "/" +:+ msg_class.message_type cls
    ∧ value = msg_class.__module__ cls +:+ "." +:+ msg_class.__name__ cls.
Proof.
  unfold MESSAGE_TYPES.
  intros [Hempty|Hcls]%foldl_insert_lookup; [|exact Hcls].
  by rewrite lookup_empty in Hempty.
Qed.

Lemma MESSAGE_TYPES_only_registered_witness :
  ∃ cls,
    cls ∈ registered_classes
    ∧ protocol +:+ "/credentials-list"
      = protocol +:+ "/" +:+ msg_class.message_type cls
    ∧ "acapy_plugin_toolbox.holder.v0_1.CredList"
      = msg_class.__module__ cls +:+ "." +:+ msg_class.__name__ cls.
Proof.
  apply (MESSAGE_TYPES_only_registered (protocol +:+ "/credentials-list")
           "acapy_plugin_toolbox.holder.v0_1.CredList").
  vm_compute. reflexivity.
Defined.
